(** * SEOCrawler: a shallow embedding of [main.py]

    The development follows the Python class [SEOCrawler]:
    - Python [str] values are [string]s (ASCII text, so [len] is
      [String.length]);
    - the two [set]s of URLs are [gset string];
    - a page-issue [dict], whose insertion order is observable in the
      exported files, is an association list;
    - the standard-library functions [urlparse] and [urljoin] and the HTTP
      session are collaborators of the class: the class is stated over an
      interface for them ([UrlLib], [session_get]) and a transcription of
      CPython's [urllib.parse] is given as one instance, used to evaluate
      the crawler on concrete sites;
    - [set.pop] returns an unspecified member: the member is chosen by an
      index taken from a schedule, over which every theorem quantifies. *)

From Stdlib Require Import ZArith Lia Ascii DecimalString Wellfounded.
From stdpp Require Import gmap strings list.

(** ** Python string primitives *)

Module Str.

(** [needle in hay] *)
Fixpoint contains (needle hay : string) : bool :=
  if String.prefix needle hay then true
  else match hay with
       | EmptyString => false
       | String _ hay' => contains needle hay'
       end.

Definition lower_char (c : ascii) : ascii :=
  let n := Ascii.nat_of_ascii c in
  if (65 <=? n) && (n <=? 90) then Ascii.ascii_of_nat (n + 32) else c.

(** [s.lower()] *)
Fixpoint lower (s : string) : string :=
  match s with
  | EmptyString => EmptyString
  | String c s' => String (lower_char c) (lower s')
  end.

(** The ASCII characters for which [str.isspace] holds. *)
Definition is_space (c : ascii) : bool :=
  let n := Ascii.nat_of_ascii c in
  ((9 <=? n) && (n <=? 13)) || ((28 <=? n) && (n <=? 32)).

(** [s.lstrip(chars)] for the set of characters recognised by [p] *)
Fixpoint lstrip_with (p : ascii → bool) (s : string) : string :=
  match s with
  | EmptyString => EmptyString
  | String c s' => if p c then lstrip_with p s' else s
  end.

(** [s.strip()] *)
Definition strip (s : string) : string :=
  String.rev (lstrip_with is_space (String.rev (lstrip_with is_space s))).

(** [str(n)] for a non-negative [int] *)
Definition of_nat (n : nat) : string := NilZero.string_of_uint (Nat.to_uint n).

(** Truth value of a [str] *)
Definition truthy (s : string) : bool :=
  match s with EmptyString => false | _ => true end.

(** [s.endswith(suffix)] *)
Definition endswith (suffix s : string) : bool :=
  String.prefix (String.rev suffix) (String.rev s).

End Str.

(** ** The parsed document

    [BeautifulSoup(response.text, 'html.parser')] is represented by the
    elements of the document in document order, which is the order in which
    [find] and [find_all] visit them. *)

Record Tag := mkTag {
  tag_name : string;
  tag_attrs : gmap string string;
  tag_text : string
}.

Definition Soup := list Tag.

Module Soup.

(** [soup.find_all(name)] *)
Definition find_all (name : string) (soup : Soup) : list Tag :=
  filter (λ t, tag_name t = name) soup.

(** [soup.find(name)] *)
Definition find (name : string) (soup : Soup) : option Tag :=
  head (find_all name soup).

(** [soup.find(name, attrs={k: v})] *)
Definition find_attrs (name k v : string) (soup : Soup) : option Tag :=
  head (filter (λ t, tag_name t = name ∧ tag_attrs t !! k = Some v) soup).

(** [soup.find_all(name, k=True)]: the elements that carry attribute [k] *)
Definition find_all_with (name k : string) (soup : Soup) : list Tag :=
  filter (λ t, tag_name t = name ∧ is_Some (tag_attrs t !! k)) soup.

(** [tag.get(k, dflt)] *)
Definition get (t : Tag) (k dflt : string) : string :=
  default dflt (tag_attrs t !! k).

End Soup.

(** ** The URL library interface *)

Record ParseResult := mkParse {
  scheme : string;
  netloc : string;
  path : string;
  params : string;
  query : string;
  fragment : string
}.

(** [None] stands for the [ValueError] the functions raise on a malformed
    URL. *)
Class UrlLib := {
  urlparse : string → option ParseResult;
  urljoin : string → string → option string
}.

(** ** Page issue records *)

Inductive Value :=
| VStr (s : string)
| VList (l : list string).

(** Truth value of a [list] *)
Definition nonempty {A} (l : list A) : bool :=
  match l with [] => false | _ => true end.

Definition truthy (v : Value) : bool :=
  match v with
  | VStr s => Str.truthy s
  | VList l => nonempty l
  end.

Definition PageIssues := list (string * Value).

(** [d[k]] read as a list of issue strings; a key that is absent holds no
    issue. *)
Fixpoint issues_of (k : string) (d : PageIssues) : list string :=
  match d with
  | [] => []
  | (k', v) :: d' =>
      if decide (k' = k)
      then match v with VList l => l | VStr _ => [] end
      else issues_of k d'
  end.

Definition has_key (k : string) (d : PageIssues) : bool :=
  bool_decide (k ∈ d.*1).

(** ** The analyzer, [SEOCrawler._get_page_seo_issues] *)

Section Analyzer.
Context `{UrlLib}.

Definition title_issues (soup : Soup) : list string :=
  match Soup.find "title" soup with
  | None => ["Missing Title Tag"]
  | Some title_tag =>
      if negb (Str.truthy (Str.strip (tag_text title_tag)))
      then ["Missing Title Tag"]
      else
        let n := String.length (tag_text title_tag) in
        if (n <? 10) || (60 <? n)
        then ["Title Tag Length Issue (Current: " +:+ Str.of_nat n +:+ " chars)"]
        else []
  end.

Definition meta_description_issues (soup : Soup) : list string :=
  match Soup.find_attrs "meta" "name" "description" soup with
  | None => ["Missing Meta Description"]
  | Some meta_desc =>
      if negb (Str.truthy (Str.strip (Soup.get meta_desc "content" "")))
      then ["Missing Meta Description"]
      else
        let n := String.length (Soup.get meta_desc "content" "") in
        if (n <? 50) || (160 <? n)
        then ["Meta Description Length Issue (Current: " +:+ Str.of_nat n +:+ " chars)"]
        else []
  end.

(** [headings[f'h{i}']] *)
Definition headings (soup : Soup) (i : nat) : list Tag :=
  Soup.find_all ("h" +:+ Str.of_nat i) soup.

Definition hierarchy_issue (k : nat) : string :=
  "Potential Heading Hierarchy Issue (Missing H" +:+ Str.of_nat k +:+ ")".

Definition heading_structure_issues (soup : Soup) : list string :=
  (if negb (nonempty (headings soup 1)) then ["No H1 Tag Found"]
   else if 1 <? length (headings soup 1) then ["Multiple H1 Tags"]
   else [])
  ++ flat_map (λ i,
       if nonempty (headings soup i) && negb (nonempty (headings soup (i + 1)))
       then [hierarchy_issue (i + 1)]
       else []) (seq 1 5).

(** The list comprehension
    [[link['href'] for link in links if urlparse(link['href']).netloc != self.base_domain]];
    a [ValueError] of [urlparse] leaves the comprehension. *)
Fixpoint external_links (base_domain : string) (links : list Tag)
  : option (list string) :=
  match links with
  | [] => Some []
  | link :: links' =>
      let href := Soup.get link "href" "" in
      match urlparse href with
      | None => None
      | Some p =>
          match external_links base_domain links' with
          | None => None
          | Some rest =>
              Some (if decide (netloc p ≠ base_domain) then href :: rest else rest)
          end
      end
  end.

Definition link_issues (base_domain : string) (soup : Soup)
  : option (list string) :=
  match external_links base_domain (Soup.find_all_with "a" "href" soup) with
  | None => None
  | Some ext =>
      Some (if 10 <? length ext
            then ["High Number of External Links (" +:+ Str.of_nat (length ext) +:+ ")"]
            else [])
  end.

(** [[img.get('src', 'Unknown') for img in images if not img.get('alt')]] *)
Definition images_without_alt (soup : Soup) : list string :=
  (λ img, Soup.get img "src" "Unknown")
    <$> filter (λ img, Str.truthy (Soup.get img "alt" "") = false)
               (Soup.find_all "img" soup).

Definition image_issues (soup : Soup) : list string :=
  if nonempty (images_without_alt soup)
  then [Str.of_nat (length (images_without_alt soup)) +:+ " Images Missing Alt Text"]
  else [].

(** [None] is an exception leaving the method. *)
Definition _get_page_seo_issues (base_domain url : string) (soup : Soup)
  : option PageIssues :=
  match link_issues base_domain soup with
  | None => None
  | Some links =>
      let seo_issues :=
        [ ("URL", VStr url);
          ("Title Issues", VList (title_issues soup));
          ("Meta Description Issues", VList (meta_description_issues soup));
          ("Heading Structure Issues", VList (heading_structure_issues soup));
          ("Link Issues", VList links);
          ("Image SEO Issues", VList (image_issues soup)) ] in
      Some (filter (λ kv, truthy kv.2 = true) seo_issues)
  end.

End Analyzer.

(** ** CPython's [urllib.parse], for ASCII [str] arguments

    A transcription of [urlsplit], [urlparse], [urlunparse] and [urljoin]
    (CPython 3.11).  The checks that only concern non-ASCII host names and
    the syntax of bracketed IPv6 literals are left out. *)

Module PyUrl.

Definition is_char (c : ascii) : ascii → bool := λ x, bool_decide (x = c).

(** [(s[:i], s[i:])] where [i] is the index of the first character
    satisfying [p], or [len(s)] when there is none *)
Fixpoint break (p : ascii → bool) (s : string) : string * string :=
  match s with
  | EmptyString => (EmptyString, EmptyString)
  | String c s' =>
      if p c then (EmptyString, s)
      else let '(a, b) := break p s' in (String c a, b)
  end.

Definition tail (s : string) : string :=
  match s with EmptyString => EmptyString | String _ s' => s' end.

Fixpoint all_chars (p : ascii → bool) (s : string) : bool :=
  match s with
  | EmptyString => true
  | String c s' => p c && all_chars p s'
  end.

Fixpoint remove_chars (p : ascii → bool) (s : string) : string :=
  match s with
  | EmptyString => EmptyString
  | String c s' => if p c then remove_chars p s' else String c (remove_chars p s')
  end.

(** [s.split(sep)] for a one-character separator *)
Fixpoint split_on (sep : ascii) (s : string) : list string :=
  match s with
  | EmptyString => [EmptyString]
  | String c s' =>
      match split_on sep s' with
      | [] => []
      | w :: ws => if bool_decide (c = sep) then EmptyString :: w :: ws
                   else String c w :: ws
      end
  end.

Definition is_alpha (c : ascii) : bool :=
  let n := Ascii.nat_of_ascii c in
  ((65 <=? n) && (n <=? 90)) || ((97 <=? n) && (n <=? 122)).

Definition is_digit (c : ascii) : bool :=
  let n := Ascii.nat_of_ascii c in (48 <=? n) && (n <=? 57).

Definition scheme_char (c : ascii) : bool :=
  is_alpha c || is_digit c || is_char "+" c || is_char "-" c || is_char "." c.

Definition c0_control_or_space (c : ascii) : bool :=
  Ascii.nat_of_ascii c <=? 32.

Definition unsafe_url_byte (c : ascii) : bool :=
  is_char "009" c || is_char "010" c || is_char "013" c.

Definition mem (s : string) (l : list string) : bool := bool_decide (s ∈ l).

Definition uses_relative : list string :=
  [""; "ftp"; "http"; "gopher"; "nntp"; "imap"; "wais"; "file"; "https";
   "shttp"; "mms"; "prospero"; "rtsp"; "rtspu"; "sftp"; "svn"; "svn+ssh";
   "ws"; "wss"].

Definition uses_netloc : list string :=
  [""; "ftp"; "http"; "gopher"; "nntp"; "telnet"; "imap"; "wais"; "file";
   "mms"; "https"; "shttp"; "snews"; "prospero"; "rtsp"; "rtspu"; "rsync";
   "svn"; "svn+ssh"; "sftp"; "nfs"; "git"; "git+ssh"; "ws"; "wss"].

Definition uses_params : list string :=
  [""; "ftp"; "hdl"; "prospero"; "http"; "imap"; "https"; "shttp"; "rtsp";
   "rtspu"; "sip"; "sips"; "mms"; "sftp"; "tel"].

(** [urlsplit(url, scheme)]: scheme, netloc, path, query, fragment *)
Definition urlsplit (url dflt : string)
  : option (string * string * string * string * string) :=
  let url := Str.lstrip_with c0_control_or_space url in
  let url := remove_chars unsafe_url_byte url in
  let '(sch, url) :=
    let '(pre, rest) := break (is_char ":") url in
    match pre, rest with
    | String c0 _, String _ rest' =>
        if is_alpha c0 && all_chars scheme_char pre
        then (Str.lower pre, rest')
        else (dflt, url)
    | _, _ => (dflt, url)
    end in
  let '(nl, url) :=
    if String.prefix "//" url
    then break (λ c, is_char "/" c || is_char "?" c || is_char "#" c)
               (tail (tail url))
    else (EmptyString, url) in
  if xorb (Str.contains "[" nl) (Str.contains "]" nl) then None
  else
    let '(url, frag) := break (is_char "#") url in
    let '(url, qry) := break (is_char "?") url in
    Some (sch, nl, url, tail qry, tail frag).

(** [_splitparams(url)] *)
Definition _splitparams (url : string) : string * string :=
  let '(seg_rev, dir_rev) := break (is_char "/") (String.rev url) in
  let '(seg, par) := break (is_char ";") (String.rev seg_rev) in
  match par with
  | EmptyString => (url, EmptyString)
  | String _ par' => (String.rev dir_rev +:+ seg, par')
  end.

Definition urlparse_with (url dflt : string) : option ParseResult :=
  match urlsplit url dflt with
  | None => None
  | Some (sch, nl, url, qry, frag) =>
      let '(url, par) :=
        if mem sch uses_params && Str.contains ";" url
        then _splitparams url else (url, EmptyString) in
      Some (mkParse sch nl url par qry frag)
  end.

Definition urlparse (url : string) : option ParseResult :=
  urlparse_with url "".

Definition urlunsplit (sch nl url qry frag : string) : string :=
  let url :=
    if Str.truthy nl
       || (Str.truthy sch && mem sch uses_netloc && negb (String.prefix "//" url))
    then "//" +:+ nl +:+
         (if Str.truthy url && negb (String.prefix "/" url) then "/" +:+ url else url)
    else url in
  let url := if Str.truthy sch then sch +:+ ":" +:+ url else url in
  let url := if Str.truthy qry then url +:+ "?" +:+ qry else url in
  if Str.truthy frag then url +:+ "#" +:+ frag else url.

Definition urlunparse (p : ParseResult) : string :=
  urlunsplit (scheme p) (netloc p)
    (if Str.truthy (params p) then path p +:+ ";" +:+ params p else path p)
    (query p) (fragment p).

(** The loop of [urljoin] that resolves the ["."] and [".."] segments;
    [acc] is [resolved_path]. *)
Fixpoint resolve_segments (acc segments : list string) : list string :=
  match segments with
  | [] => acc
  | seg :: rest =>
      if bool_decide (seg = "..") then resolve_segments (removelast acc) rest
      else if bool_decide (seg = ".") then resolve_segments acc rest
      else resolve_segments (acc ++ [seg]) rest
  end.

(** [segments[1:-1] = filter(None, segments[1:-1])] *)
Definition drop_inner_empty (segments : list string) : list string :=
  match segments with
  | [] => []
  | [x] => [x]
  | x :: rest =>
      x :: filter (λ s, Str.truthy s = true) (removelast rest) ++ [List.last rest ""]
  end.

Definition urljoin (base url : string) : option string :=
  if negb (Str.truthy base) then Some url
  else if negb (Str.truthy url) then Some base
  else
    match urlparse_with base "" with
    | None => None
    | Some b =>
        match urlparse_with url (scheme b) with
        | None => None
        | Some u =>
            if negb (bool_decide (scheme u = scheme b)) || negb (mem (scheme u) uses_relative)
            then Some url
            else if mem (scheme u) uses_netloc && Str.truthy (netloc u)
            then Some (urlunparse u)
            else
              let nl := if mem (scheme u) uses_netloc then netloc b else netloc u in
              if negb (Str.truthy (path u)) && negb (Str.truthy (params u))
              then Some (urlunparse
                     (mkParse (scheme u) nl (path b) (params b)
                        (if Str.truthy (query u) then query u else query b)
                        (fragment u)))
              else
                let base_parts :=
                  let parts := split_on "/" (path b) in
                  if Str.truthy (List.last parts "") then removelast parts else parts in
                let segments :=
                  if String.prefix "/" (path u) then split_on "/" (path u)
                  else drop_inner_empty (base_parts ++ split_on "/" (path u)) in
                let resolved_path := resolve_segments [] segments in
                let resolved_path :=
                  if mem (List.last segments "") ["."; ".."]
                  then resolved_path ++ [""] else resolved_path in
                let joined := String.concat "/" resolved_path in
                Some (urlunparse
                  (mkParse (scheme u) nl
                     (if Str.truthy joined then joined else "/")
                     (params u) (query u) (fragment u)))
        end
    end.

End PyUrl.

#[export] Instance py_urllib : UrlLib :=
  {| urlparse := PyUrl.urlparse; urljoin := PyUrl.urljoin |}.

(** ** The crawler *)

Record SEOCrawler := mkCrawler {
  domain : string;
  base_domain : string;
  max_depth : Z;
  max_pages : Z;
  visited_urls : gset string;
  to_visit_urls : gset string;
  seo_results : list PageIssues;
  crawl_complete : bool;
  (** ghost field: the URLs passed to [session.get], oldest first *)
  requested : list string
}.

Definition set_visited_urls (v : gset string) (c : SEOCrawler) : SEOCrawler :=
  mkCrawler (domain c) (base_domain c) (max_depth c) (max_pages c) v
    (to_visit_urls c) (seo_results c) (crawl_complete c) (requested c).

Definition set_to_visit_urls (t : gset string) (c : SEOCrawler) : SEOCrawler :=
  mkCrawler (domain c) (base_domain c) (max_depth c) (max_pages c)
    (visited_urls c) t (seo_results c) (crawl_complete c) (requested c).

Definition set_seo_results (r : list PageIssues) (c : SEOCrawler) : SEOCrawler :=
  mkCrawler (domain c) (base_domain c) (max_depth c) (max_pages c)
    (visited_urls c) (to_visit_urls c) r (crawl_complete c) (requested c).

Definition set_crawl_complete (b : bool) (c : SEOCrawler) : SEOCrawler :=
  mkCrawler (domain c) (base_domain c) (max_depth c) (max_pages c)
    (visited_urls c) (to_visit_urls c) (seo_results c) b (requested c).

Definition log_request (url : string) (c : SEOCrawler) : SEOCrawler :=
  mkCrawler (domain c) (base_domain c) (max_depth c) (max_pages c)
    (visited_urls c) (to_visit_urls c) (seo_results c) (crawl_complete c)
    (requested c ++ [url]).

(** [c'] is [c] with another frontier. *)
Definition frontier_update (c c' : SEOCrawler) : Prop :=
  c' = set_to_visit_urls (to_visit_urls c') c.

(** No URL is both waiting and visited. *)
Definition disjoint_sets (c : SEOCrawler) : Prop :=
  to_visit_urls c ## visited_urls c.

(** The visited set is within the page ceiling, and each of its members
    has been requested. *)
Definition counted (c : SEOCrawler) : Prop :=
  (Z.of_nat (size (visited_urls c)) ≤ Z.max 0 (max_pages c))%Z
  ∧ visited_urls c ⊆ list_to_set (requested c).

(** What [session.get(current_url, timeout=10)] followed by
    [BeautifulSoup(response.text, 'html.parser')] can produce. *)
Inductive Response :=
| RequestException
| OtherException
| HttpResponse (content_type : option string) (soup : Soup).

(** [s.pop()]: some member of [s], here the one at position [k] (modulo
    the size) of the enumeration of [s], and [s] without it. *)
Definition set_pop (k : nat) (s : gset string) : option (string * gset string) :=
  let l := elements s in
  match l !! (k mod length l) with
  | Some u => Some (u, s ∖ {[u]})
  | None => None
  end.

Definition denylist : list string :=
  [".pdf"; ".jpg"; ".png"; ".gif"; ".css"; ".js"].

Section Crawler.
Context `{UrlLib}.

(** The site: the answer to a request may depend on the requests made
    before it. *)
Variable session_get : list string → string → Response.

(** The member [set.pop] picks at each iteration of the loop. *)
Variable sched : nat → nat.

(** [SEOCrawler.__init__]; [None] when [urlparse] raises. *)
Definition __init__ (domain : string) (max_depth max_pages : Z) : option SEOCrawler :=
  let domain :=
    if String.prefix "http://" domain || String.prefix "https://" domain
    then domain else "http://" +:+ domain in
  match urlparse domain with
  | None => None
  | Some p =>
      Some (mkCrawler domain (netloc p) max_depth max_pages ∅ {[domain]} [] false [])
  end.

Definition _is_valid_url (c : SEOCrawler) (url : string) : bool :=
  match urlparse url with
  | None => false
  | Some parsed_url =>
      bool_decide (netloc parsed_url = base_domain c)
      && bool_decide (scheme parsed_url ∈ ["http"; "https"])
      && negb (existsb (λ ext, Str.contains ext url) denylist)
  end.

(** The body of [for link in links], once [full_url] is computed. *)
Definition offer (full_url : string) (c : SEOCrawler) : SEOCrawler :=
  if _is_valid_url c full_url
     && bool_decide (full_url ∉ visited_urls c)
     && bool_decide (full_url ∉ to_visit_urls c)
  then set_to_visit_urls ({[full_url]} ∪ to_visit_urls c) c
  else c.

(** [for link in links: ...]; a [ValueError] of [urljoin] ends the loop
    and is caught by [except Exception] with the state as it is. *)
Fixpoint follow_links (current_url : string) (links : list Tag) (c : SEOCrawler)
  : SEOCrawler :=
  match links with
  | [] => c
  | link :: links' =>
      match urljoin current_url (Soup.get link "href" "") with
      | None => c
      | Some full_url => follow_links current_url links' (offer full_url c)
      end
  end.

Definition is_html (content_type : option string) : bool :=
  Str.contains "text/html" (Str.lower (default "" content_type)).

(** The [try] block of one iteration, for a [current_url] that was popped
    and is not visited. *)
Definition visit (current_url : string) (c : SEOCrawler) : SEOCrawler :=
  let response := session_get (requested c) current_url in
  let c := log_request current_url c in
  match response with
  | RequestException | OtherException => c
  | HttpResponse content_type soup =>
      if negb (is_html content_type) then c
      else
        match _get_page_seo_issues (base_domain c) current_url soup with
        | None => c
        | Some page_issues =>
            let c := if nonempty page_issues
                     then set_seo_results (seo_results c ++ [page_issues]) c
                     else c in
            let c := set_visited_urls ({[current_url]} ∪ visited_urls c) c in
            follow_links current_url (Soup.find_all_with "a" "href" soup) c
        end
  end.

(** The condition of the [while] loop. *)
Definition loop_cond (c : SEOCrawler) : bool :=
  negb (bool_decide (to_visit_urls c = ∅))
  && (Z.of_nat (size (visited_urls c)) <? max_pages c)%Z.

(** One iteration of the [while] loop; [k] selects what [pop] returns. *)
Definition loop_body (k : nat) (c : SEOCrawler) : SEOCrawler :=
  match set_pop k (to_visit_urls c) with
  | None => c
  | Some (current_url, rest) =>
      let c := set_to_visit_urls rest c in
      if bool_decide (current_url ∈ visited_urls c) then c
      else visit current_url c
  end.

(** The [while] loop from iteration [i] on; [None] when [fuel] iterations
    do not reach the end of the loop. *)
Fixpoint crawl_loop (fuel i : nat) (c : SEOCrawler) : option SEOCrawler :=
  if loop_cond c
  then match fuel with
       | O => None
       | S fuel' => crawl_loop fuel' (S i) (loop_body (sched i) c)
       end
  else Some c.

(** [SEOCrawler.crawl]: the final object and the returned list.  Every
    exception raised inside the loop is caught inside it, so the outer
    handler is not entered once the session exists. *)
Definition crawl (fuel : nat) (c : SEOCrawler)
  : option (SEOCrawler * list PageIssues) :=
  match crawl_loop fuel 0 c with
  | None => None
  | Some c' => Some (set_crawl_complete true c', seo_results c')
  end.

(** The crawler at the head of the loop after at most [n] iterations,
    the first of which is iteration [i]. *)
Fixpoint iterate (n i : nat) (c : SEOCrawler) : SEOCrawler :=
  match n with
  | O => c
  | S n' => if loop_cond c then iterate n' (S i) (loop_body (sched i) c) else c
  end.

End Crawler.

(** ** Concrete documents and sites *)

Definition element (name text : string) : Tag := mkTag name ∅ text.

Definition anchor (href : string) : Tag := mkTag "a" {["href" := href]} "".

Definition html (soup : Soup) : Response :=
  HttpResponse (Some "text/html; charset=utf-8") soup.

(** Eleven links to pages of the site itself, written as relative
    references. *)
Definition relative_hrefs : list string :=
  ["/p1"; "/p2"; "/p3"; "/p4"; "/p5"; "/p6"; "/p7"; "/p8"; "/p9"; "/p10"; "/p11"].

Definition page_relative_links : Soup := anchor <$> relative_hrefs.

(** A document with one h1, one h2 and one h3. *)
Definition page_h1_h2_h3 : Soup :=
  [element "h1" "Main"; element "h2" "Section"; element "h3" "Detail"].

(** A document with one h1 and one h3. *)
Definition page_h1_h3 : Soup :=
  [element "h1" "Main"; element "h3" "Detail"].

Definition page_title (text : string) : Soup := [element "title" text].

(** A title of 61 characters. *)
Definition title_61 : string :=
  "A title that is one character longer than sixty characters ok".

(** A document on which no rule of the analyzer fires. *)
Definition page_clean : Soup :=
  [ element "title" "A title of a sensible length";
    mkTag "meta"
      {["name" := "description";
        "content" := "A description that is long enough to pass the fifty character floor."]} "";
    element "h1" "One"; element "h2" "Two"; element "h3" "Three";
    element "h4" "Four"; element "h5" "Five"; element "h6" "Six";
    mkTag "img" {["src" := "/logo.png"; "alt" := "logo"]} "" ].

(** A site whose home page links to [/a] and [/b]; [/b] links to [/a];
    every other request fails with a network error. *)
Definition site_retry (_ : list string) (url : string) : Response :=
  if bool_decide (url = "http://example.com") then html [anchor "/a"; anchor "/b"]
  else if bool_decide (url = "http://example.com/b") then html [anchor "/a"]
  else RequestException.

(** The same site, where [/a] is served as a plain-text document. *)
Definition site_plain_text (_ : list string) (url : string) : Response :=
  if bool_decide (url = "http://example.com") then html [anchor "/a"; anchor "/b"]
  else if bool_decide (url = "http://example.com/b") then html [anchor "/a"]
  else HttpResponse (Some "text/plain") [].

(** A site whose home page links to eleven pages that all fail with a
    network error. *)
Definition site_dead_links (_ : list string) (url : string) : Response :=
  if bool_decide (url = "http://example.com") then html page_relative_links
  else RequestException.

(** A site whose two pages link to each other and to themselves. *)
Definition site_cycle (_ : list string) (url : string) : Response :=
  if bool_decide (url = "http://example.com")
  then html [anchor "/b"; anchor "http://example.com"]
  else if bool_decide (url = "http://example.com/b")
  then html [anchor "http://example.com"; anchor "/b"]
  else RequestException.

(** A site with a single page, on which the analyzer finds nothing. *)
Definition site_clean (_ : list string) (url : string) : Response :=
  if bool_decide (url = "http://example.com") then html page_clean
  else RequestException.

Definition first_member : nat → nat := λ _, 0.

(** The crawler for [example.com] with the defaults of the command line. *)
Definition example_crawler : SEOCrawler :=
  mkCrawler "http://example.com" "example.com" 3 50 ∅ {["http://example.com"]} [] false [].

(** The same crawler with the smallest page ceiling the command line
    accepts. *)
Definition small_crawler : SEOCrawler :=
  mkCrawler "http://example.com" "example.com" 3 10 ∅ {["http://example.com"]} [] false [].

(** The scoping rule as the specification words it: same host, scheme http
    or https, and a path that does not end in a denylisted extension. *)
Definition spec_in_scope `{UrlLib} (c : SEOCrawler) (url : string) : bool :=
  match urlparse url with
  | None => false
  | Some p =>
      bool_decide (netloc p = base_domain c)
      && bool_decide (scheme p ∈ ["http"; "https"])
      && negb (existsb (λ ext, Str.endswith ext (path p)) denylist)
  end.

(** The external links as the specification words them: the anchors whose
    href, resolved against the page URL, has a host other than the origin
    host. *)
Definition resolved_netloc `{UrlLib} (url href : string) : option string :=
  match urljoin url href with
  | Some full_url =>
      match urlparse full_url with
      | Some p => Some (netloc p)
      | None => None
      end
  | None => None
  end.

Definition spec_is_external `{UrlLib} (base_domain url href : string) : bool :=
  match resolved_netloc url href with
  | Some host => negb (bool_decide (host = base_domain))
  | None => false
  end.

Definition spec_external_links `{UrlLib} (base_domain url : string) (soup : Soup)
  : list string :=
  filter (λ href, spec_is_external base_domain url href = true)
         ((λ link, Soup.get link "href" "") <$> Soup.find_all_with "a" "href" soup).

From Stdlib Require DecimalNat.

(** ** Observations used to state further properties *)

(** The test of the comprehension in [_get_page_seo_issues] on one href:
    [urlparse(href).netloc != self.base_domain]. *)
Definition is_external_href `{UrlLib} (base_domain href : string) : bool :=
  match urlparse href with
  | Some p => bool_decide (netloc p ≠ base_domain)
  | None => false
  end.

(** [[link['href'] for link in soup.find_all('a', href=True)]] *)
Definition hrefs (soup : Soup) : list string :=
  (λ link, Soup.get link "href" "") <$> Soup.find_all_with "a" "href" soup.

(** The keys of [seo_issues], in their order of insertion. *)
Definition issue_keys : list string :=
  ["URL"; "Title Issues"; "Meta Description Issues"; "Heading Structure Issues";
   "Link Issues"; "Image SEO Issues"].

(** [d.get(k)]; [d[k]] raises [KeyError] where this is [None]. *)
Fixpoint dict_get (k : string) (d : PageIssues) : option Value :=
  match d with
  | [] => None
  | (k', v) :: d' => if decide (k' = k) then Some v else dict_get k d'
  end.

(** ** The console report, [display_seo_results] *)

(** How a call ends: with a value, or with an exception, named by its
    class. *)
Inductive Outcome (A : Type) :=
| Returned (a : A)
| Raised (exn : string).
Arguments Returned {A} a.
Arguments Raised {A} exn.

(** The newline character, written ["\n"] in the source. *)
Definition nl : string := String "010" EmptyString.

(** [for issue in issues]: the items of a list, the characters of a
    [str]. *)
Fixpoint chars (s : string) : list string :=
  match s with
  | EmptyString => []
  | String a s' => String a EmptyString :: chars s'
  end.

Definition items_of (v : Value) : list string :=
  match v with
  | VStr s => chars s
  | VList l => l
  end.

Section Report.

(** [repr] of a list of [str], which an f-string applies when the value it
    formats is a list. *)
Variable repr_of_list : list string → string.

(** [f"{v}"] *)
Definition format_value (v : Value) : string :=
  match v with
  | VStr s => s
  | VList l => repr_of_list l
  end.

(** The lines printed by the inner loop
    [for issue_type, issues in result.items()] for one record. *)
Definition category_lines (result : PageIssues) : list string :=
  flat_map (λ '(issue_type, issues),
              if negb (bool_decide (issue_type = "URL")) && truthy issues
              then (issue_type +:+ ":") :: ((λ issue, "  - " +:+ issue) <$> items_of issues)
              else [])
           result.

(** The loop [for result in results]: the lines printed, and whether
    [result['URL']] raised [KeyError] and ended the loop. *)
Fixpoint display_records (results : list PageIssues) : list string * bool :=
  match results with
  | [] => ([], false)
  | result :: results' =>
      match dict_get "URL" result with
      | None => ([], true)
      | Some url =>
          let '(lines, raised) := display_records results' in
          ((nl +:+ "URL: " +:+ format_value url) :: category_lines result ++ lines,
           raised)
      end
  end.

(** [display_seo_results]: the arguments of the successive calls of
    [print], and how the call ends. *)
Definition display_seo_results (results : list PageIssues)
  : list string * Outcome (option (list PageIssues)) :=
  if negb (nonempty results)
  then (["No SEO issues found or unable to crawl the website."], Returned None)
  else
    let '(lines, raised) := display_records results in
    ((nl +:+ "--- SEO AUDIT RESULTS ---") :: lines,
     if raised then Raised "KeyError" else Returned (Some results)).

End Report.

(** ** The export, [save_output] *)

(** What a file written by [save_output] holds: the text written through
    [f.write], or the table pandas makes of the records ([DataFrame(seo_results)]
    sent to [to_csv] or [to_excel]). *)
Inductive FileContent :=
| TextFile (text : string)
| TableFile (ext : string) (rows : list PageIssues).

(** What the user sees and what reaches the disk, in order: the prompt of
    an [input], the argument of a [print], a file that is written. *)
Inductive Event :=
| Prompt (text : string)
| Print (text : string)
| Write (path : string) (content : FileContent).

(** [answer.lower() in ['y', 'yes']] *)
Definition says_yes (answer : string) : bool :=
  bool_decide (Str.lower answer ∈ ["y"; "yes"]).

(** [s or dflt] *)
Definition str_or (s dflt : string) : string :=
  if Str.truthy s then s else dflt.

(** The dict [file_types]. *)
Definition file_types : list (string * (string * string)) :=
  [("1", ("txt", "Text File")); ("2", ("csv", "CSV File"));
   ("3", ("xlsx", "Excel File")); ("4", ("md", "Markdown File"))].

Fixpoint file_type_of (choice : string) (types : list (string * (string * string)))
  : option (string * string) :=
  match types with
  | [] => None
  | (key, entry) :: types' =>
      if decide (key = choice) then Some entry else file_type_of choice types'
  end.

Section SaveOutput.
Variable repr_of_list : list string → string.

(** [os.path.isdir] *)
Variable isdir : string → bool.

(** [os.path.join] *)
Variable path_join : string → string → string.

(** [open(path, 'w')]: [Some msg] when it raises an exception whose text is
    [msg]. *)
Variable open_for_writing : string → option string.

(** [pd.DataFrame(seo_results).to_csv(path, index=False)] and [to_excel],
    selected by the extension: [Some msg] when pandas raises an exception
    whose text is [msg]. *)
Variable pandas_write : string → list PageIssues → string → option string.

(** The text written for the categories of one record in the [txt]
    branch. *)
Definition txt_categories (result : PageIssues) : string :=
  String.concat ""
    (flat_map (λ '(issue_type, issues),
                 if negb (bool_decide (issue_type = "URL")) && truthy issues
                 then (issue_type +:+ ":" +:+ nl)
                        :: ((λ issue, "  - " +:+ issue +:+ nl) <$> items_of issues)
                 else [])
              result).

(** The [txt] branch: the text written before the file is closed, and
    whether [result['URL']] raised [KeyError]. *)
Fixpoint render_txt (seo_results : list PageIssues) : string * bool :=
  match seo_results with
  | [] => (EmptyString, false)
  | result :: seo_results' =>
      match dict_get "URL" result with
      | None => (EmptyString, true)
      | Some url =>
          let '(text, raised) := render_txt seo_results' in
          ("URL: " +:+ format_value repr_of_list url +:+ nl
             +:+ txt_categories result +:+ nl +:+ text,
           raised)
      end
  end.

Definition md_categories (result : PageIssues) : string :=
  String.concat ""
    (flat_map (λ '(issue_type, issues),
                 if negb (bool_decide (issue_type = "URL")) && truthy issues
                 then ("### " +:+ issue_type +:+ nl)
                        :: ((λ issue, "- " +:+ issue +:+ nl) <$> items_of issues)
                 else [])
              result).

Fixpoint render_md_records (seo_results : list PageIssues) : string * bool :=
  match seo_results with
  | [] => (EmptyString, false)
  | result :: seo_results' =>
      match dict_get "URL" result with
      | None => (EmptyString, true)
      | Some url =>
          let '(text, raised) := render_md_records seo_results' in
          ("## " +:+ format_value repr_of_list url +:+ nl +:+ nl
             +:+ md_categories result +:+ nl +:+ text,
           raised)
      end
  end.

(** The [md] branch. *)
Definition render_md (seo_results : list PageIssues) : string * bool :=
  let '(text, raised) := render_md_records seo_results in
  ("# SEO Audit Results" +:+ nl +:+ nl +:+ text, raised).

(** A text branch of the [try] block: the file is opened, written and
    closed; a [KeyError] leaves the text written so far in the file.  The
    calls of [f.write] themselves are taken to succeed. *)
Definition write_text (full_path : string) (rendered : string * bool)
  : list Event * option string :=
  match open_for_writing full_path with
  | Some msg => ([], Some msg)
  | None =>
      ([Write full_path (TextFile rendered.1)],
       if rendered.2 then Some "'URL'" else None)
  end.

Definition write_table (file_ext full_path : string) (seo_results : list PageIssues)
  : list Event * option string :=
  match pandas_write file_ext seo_results full_path with
  | Some msg => ([], Some msg)
  | None => ([Write full_path (TableFile file_ext seo_results)], None)
  end.

(** The [if]/[elif] chain of the [try] block: the files written, and the
    text of the exception when one is raised. *)
Definition write_file (file_ext full_path : string) (seo_results : list PageIssues)
  : list Event * option string :=
  if decide (file_ext = "txt") then write_text full_path (render_txt seo_results)
  else if decide (file_ext = "csv") then write_table file_ext full_path seo_results
  else if decide (file_ext = "xlsx") then write_table file_ext full_path seo_results
  else if decide (file_ext = "md") then write_text full_path (render_md seo_results)
  else ([], None).

Definition path_prompt : string :=
  "Enter the directory path to save the file (default is current directory): ".

Definition retry_prompt : string := "Do you want to try again? (yes/no) [y/n]: ".

(** The [while True] loop; [inputs] are the lines the user types, and an
    [input] that finds none raises [EOFError]. *)
Fixpoint save_loop (file_ext : string) (seo_results : list PageIssues)
    (inputs : list string) : list Event * Outcome () :=
  match inputs with
  | [] => ([Prompt path_prompt], Raised "EOFError")
  | line :: inputs' =>
      let save_path := str_or (Str.strip line) "." in
      if negb (isdir save_path)
      then
        let '(events, outcome) := save_loop file_ext seo_results inputs' in
        (Prompt path_prompt :: Print "Invalid path. Please enter a valid directory."
           :: events, outcome)
      else
        let filename := "audit-results." +:+ file_ext in
        let full_path := path_join save_path filename in
        let '(written, error) := write_file file_ext full_path seo_results in
        match error with
        | None =>
            (Prompt path_prompt :: written
               ++ [Print (nl +:+ filename +:+ " saved in " +:+ save_path)],
             Returned ())
        | Some msg =>
            let failed :=
              Prompt path_prompt :: written
                ++ [Print ("Error saving file: " +:+ msg); Prompt retry_prompt] in
            match inputs' with
            | [] => (failed, Raised "EOFError")
            | retry :: inputs'' =>
                if says_yes retry
                then
                  let '(events, outcome) := save_loop file_ext seo_results inputs'' in
                  (failed ++ events, outcome)
                else (failed, Returned ())
            end
        end
  end.

Definition save_prompt : string :=
  nl +:+ "Do you want to save the results? (yes/no) [y/n]: ".

Definition type_prompt : string :=
  "Enter the number of the file type (default is 1): ".

(** [save_output] *)
Definition save_output (seo_results : list PageIssues) (inputs : list string)
  : list Event * Outcome () :=
  match inputs with
  | [] => ([Prompt save_prompt], Raised "EOFError")
  | save_choice :: inputs' =>
      if negb (says_yes save_choice)
      then ([Prompt save_prompt; Print "Output not saved."], Returned ())
      else
        let menu :=
          Print (nl +:+ "Select file type (1-4):")
            :: ((λ '(key, (ext, name)), Print (key +:+ "- " +:+ name +:+ " (." +:+ ext +:+ ")"))
                  <$> file_types) in
        match inputs' with
        | [] => (Prompt save_prompt :: menu ++ [Prompt type_prompt], Raised "EOFError")
        | line :: inputs'' =>
            let file_type_choice := str_or (Str.strip line) "1" in
            let '(notice, file_ext) :=
              match file_type_of file_type_choice file_types with
              | Some (ext, _) => ([], ext)
              | None => ([Print "Invalid choice. Defaulting to .txt"], "txt")
              end in
            let '(events, outcome) := save_loop file_ext seo_results inputs'' in
            (Prompt save_prompt :: menu ++ [Prompt type_prompt] ++ notice ++ events,
             outcome)
        end
  end.

End SaveOutput.

(** The characters that successive calls of [print] send to the console:
    each argument followed by a newline. *)
Definition stream_of (lines : list string) : string :=
  String.concat "" ((λ line, line +:+ nl) <$> lines).

(** What a file of extension [ext] made from [rows] holds: text for [txt]
    and [md], the table of the records for [csv] and [xlsx]. *)
Definition content_matches (ext : string) (rows : list PageIssues)
    (content : FileContent) : Prop :=
  match content with
  | TextFile _ => ext = "txt" ∨ ext = "md"
  | TableFile ext' rows' => ext' = ext ∧ rows' = rows ∧ (ext = "csv" ∨ ext = "xlsx")
  end.

(** ** Further concrete documents, sites and environments *)

(** A document whose description has 49 characters. *)
Definition page_short_description : Soup :=
  [mkTag "meta"
     {["name" := "description";
       "content" := "Forty-nine characters of description, never fifty"]} ""].

(** Three images: one described, one with an empty [alt], one without. *)
Definition page_images : Soup :=
  [mkTag "img" {["src" := "/a.png"; "alt" := "a"]} "";
   mkTag "img" {["src" := "/b.png"; "alt" := ""]} "";
   mkTag "img" ∅ ""].

(** Twelve links: eleven relative ones and one to the site's own host. *)
Definition page_twelve_links : Soup :=
  anchor <$> (relative_hrefs ++ ["http://example.com/about"]).

(** A home page with a link that [urlparse] rejects, next to a valid one. *)
Definition site_bad_href (_ : list string) (url : string) : Response :=
  if bool_decide (url = "http://example.com")
  then html [anchor "/a"; anchor "http://[::1"]
  else html [].

(** Two records as the analyzer makes them. *)
Definition sample_results : list PageIssues :=
  [[("URL", VStr "http://example.com");
    ("Title Issues", VList ["Missing Title Tag"]);
    ("Image SEO Issues", VList ["2 Images Missing Alt Text"])];
   [("URL", VStr "http://example.com/a")]].

(** [repr] of a list of strings that need no escaping. *)
Definition repr_plain (l : list string) : string :=
  "[" +:+ String.concat ", " ((λ s, "'" +:+ s +:+ "'") <$> l) +:+ "]".

(** [posixpath.join] for a second component that is not absolute. *)
Definition posix_join (a b : string) : string :=
  if negb (Str.truthy a) || Str.endswith "/" a then a +:+ b else a +:+ "/" +:+ b.

(** A disk where only the current directory exists and every write
    succeeds. *)
Definition only_cwd (dir : string) : bool := bool_decide (dir = ".").

Definition opens (_ : string) : option string := None.

Definition pandas_writes (_ : string) (_ : list PageIssues) (_ : string)
  : option string := None.

(** ** Observations on a run *)

Section RunObservations.
Context `{UrlLib}.
Variable session_get : list string → string → Response.

(** Whether the request of [url], made after the requests [log], gets past
    the content-type test and the analysis: the condition under which
    [crawl] reaches [self.visited_urls.add(current_url)]. *)
Definition is_analysed (base_domain : string) (log : list string) (url : string)
  : bool :=
  match session_get log url with
  | HttpResponse content_type soup =>
      is_html content_type
      && bool_decide (is_Some (_get_page_seo_issues base_domain url soup))
  | RequestException | OtherException => false
  end.

(** The requests of [log], made after the requests [before], that were
    analysed, in order. *)
Fixpoint analysed_pages (base_domain : string) (before log : list string)
  : list string :=
  match log with
  | [] => []
  | url :: log' =>
      (if is_analysed base_domain before url then [url] else [])
      ++ analysed_pages base_domain (before ++ [url]) log'
  end.

End RunObservations.

(** A crawler for a host whose name contains [.js]. *)
Definition jsdelivr_crawler : SEOCrawler :=
  mkCrawler "http://cdn.jsdelivr.net" "cdn.jsdelivr.net" 3 50 ∅
    {["http://cdn.jsdelivr.net"]} [] false [].

(** * Properties *)

#[local] Set Warnings "-clear-no-such-hyp".

(** ** Sanity checks of the library transcription *)

Example urlparse_abs :
  PyUrl.urlparse "HTTP://example.com/a/b.html?x=1#top"
  = Some (mkParse "http" "example.com" "/a/b.html" "" "x=1" "top").
Proof. reflexivity. Qed.

Example urlparse_rel : PyUrl.urlparse "/about" = Some (mkParse "" "" "/about" "" "" "").
Proof. reflexivity. Qed.

Example urlparse_empty : PyUrl.urlparse "" = Some (mkParse "" "" "" "" "" "").
Proof. reflexivity. Qed.

Example urlparse_bracket : PyUrl.urlparse "http://[::1/x" = None.
Proof. reflexivity. Qed.

Example urljoin_rel :
  PyUrl.urljoin "http://example.com/a/b.html" "../c/./d.html?q#f"
  = Some "http://example.com/c/d.html?q#f".
Proof. reflexivity. Qed.

Example urljoin_root : PyUrl.urljoin "http://example.com" "/p1" = Some "http://example.com/p1".
Proof. reflexivity. Qed.

Example urljoin_abs :
  PyUrl.urljoin "http://example.com/" "https://other.org/x" = Some "https://other.org/x".
Proof. reflexivity. Qed.

Example init_example : __init__ "example.com" 3 50 = Some example_crawler.
Proof. reflexivity. Qed.

Example init_small : __init__ "http://example.com" 3 10 = Some small_crawler.
Proof. reflexivity. Qed.

Example contains_infix : Str.contains ".js" "http://example.com/index.jsp" = true.
Proof. reflexivity. Qed.

Example strip_blank : Str.strip "  	 " = "" ∧ Str.strip " a b " = "a b".
Proof. split; reflexivity. Qed.

Example lower_header : Str.lower "Text/HTML; Charset=UTF-8" = "text/html; charset=utf-8".
Proof. reflexivity. Qed.

(** ** Lists and sets *)

Lemma nonempty_true {A} (l : list A) : nonempty l = true ↔ l ≠ [].
Proof. destruct l; simpl; split; congruence. Qed.

Lemma existsb_false_Forall {A} (f : A → bool) (l : list A) :
  existsb f l = false ↔ Forall (λ x, f x = false) l.
Proof.
  induction l as [|x l IH]; simpl.
  - split; [constructor|done].
  - rewrite orb_false_iff, Forall_cons, IH. done.
Qed.

Lemma set_pop_Some k (s : gset string) u rest :
  set_pop k s = Some (u, rest) → u ∈ s ∧ rest = s ∖ {[u]}.
Proof.
  unfold set_pop. destruct (elements s !! _) as [x|] eqn:Hx; [|done].
  intros [= <- <-]. split; [|done].
  apply elem_of_elements. by eapply list_elem_of_lookup_2.
Qed.

Lemma set_pop_is_Some k (s : gset string) : s ≠ ∅ → is_Some (set_pop k s).
Proof.
  intros Hs. unfold set_pop.
  destruct (elements s) as [|x l] eqn:Hl.
  { by apply elements_empty_inv, leibniz_equiv in Hl. }
  destruct ((x :: l) !! (k mod length (x :: l))) as [y|] eqn:Hy; [by eexists|].
  apply lookup_ge_None in Hy.
  pose proof (Nat.mod_upper_bound k (length (x :: l))) as Hlt.
  simpl in *. lia.
Qed.

(** Every member can be the one that [pop] returns. *)
Lemma set_pop_any (s : gset string) u :
  u ∈ s → ∃ k, set_pop k s = Some (u, s ∖ {[u]}).
Proof.
  intros Hu%elem_of_elements%list_elem_of_lookup_1. destruct Hu as [k Hk].
  exists k. unfold set_pop.
  rewrite Nat.mod_small; [by rewrite Hk|]. by eapply lookup_lt_Some.
Qed.

(** ** The analyzer *)

Section AnalyzerFacts.
Context `{UrlLib}.

(** The record is made of the entries of [seo_issues] that are truthy, in
    their order of insertion. *)
Lemma get_page_seo_issues_inv base url soup r :
  _get_page_seo_issues base url soup = Some r →
  ∃ links, link_issues base soup = Some links ∧
    r = filter (λ kv, truthy kv.2 = true)
          [ ("URL", VStr url);
            ("Title Issues", VList (title_issues soup));
            ("Meta Description Issues", VList (meta_description_issues soup));
            ("Heading Structure Issues", VList (heading_structure_issues soup));
            ("Link Issues", VList links);
            ("Image SEO Issues", VList (image_issues soup)) ].
Proof.
  unfold _get_page_seo_issues. destruct (link_issues base soup) as [links|]; [|done].
  intros [= <-]. by exists links.
Qed.

Lemma record_shape url (t m h l i : list string) :
  let r := filter (λ kv : string * Value, truthy kv.2 = true)
          [ ("URL", VStr url); ("Title Issues", VList t);
            ("Meta Description Issues", VList m);
            ("Heading Structure Issues", VList h);
            ("Link Issues", VList l); ("Image SEO Issues", VList i) ] in
  (issues_of "Title Issues" r = t ∧ has_key "Title Issues" r = nonempty t)
  ∧ (issues_of "Meta Description Issues" r = m
     ∧ has_key "Meta Description Issues" r = nonempty m)
  ∧ (issues_of "Heading Structure Issues" r = h
     ∧ has_key "Heading Structure Issues" r = nonempty h)
  ∧ (issues_of "Link Issues" r = l ∧ has_key "Link Issues" r = nonempty l)
  ∧ (issues_of "Image SEO Issues" r = i ∧ has_key "Image SEO Issues" r = nonempty i)
  ∧ has_key "URL" r = Str.truthy url.
Proof. destruct url, t, m, h, l, i; vm_compute; done. Qed.

Lemma title_issues_of base url soup r :
  _get_page_seo_issues base url soup = Some r →
  issues_of "Title Issues" r = title_issues soup
  ∧ has_key "Title Issues" r = nonempty (title_issues soup).
Proof.
  intros (links & _ & ->)%get_page_seo_issues_inv.
  apply (record_shape url (title_issues soup) (meta_description_issues soup)
           (heading_structure_issues soup) links (image_issues soup)).
Qed.

Lemma heading_issues_of base url soup r :
  _get_page_seo_issues base url soup = Some r →
  issues_of "Heading Structure Issues" r = heading_structure_issues soup.
Proof.
  intros (links & _ & ->)%get_page_seo_issues_inv.
  apply (record_shape url (title_issues soup) (meta_description_issues soup)
           (heading_structure_issues soup) links (image_issues soup)).
Qed.

(** The rule for a title that is present and not blank. *)
Lemma title_issues_present soup title_tag :
  Soup.find "title" soup = Some title_tag →
  Str.strip (tag_text title_tag) ≠ "" →
  title_issues soup
  = if (String.length (tag_text title_tag) <? 10) || (60 <? String.length (tag_text title_tag))
    then ["Title Tag Length Issue (Current: "
            +:+ Str.of_nat (String.length (tag_text title_tag)) +:+ " chars)"]
    else [].
Proof.
  intros Hfind Hstrip. unfold title_issues. rewrite Hfind.
  by destruct (Str.strip (tag_text title_tag)).
Qed.

(** C9. For a document whose title element has text that is not blank, a
    title of exactly 10 or exactly 60 characters produces no title issue
    (the record has no ['Title Issues'] key), while a title of 9 or of 61
    characters produces the title-length issue, whose text states that
    length. *)
Theorem title_length_boundaries base url soup r title_tag :
  _get_page_seo_issues base url soup = Some r →
  Soup.find "title" soup = Some title_tag →
  Str.strip (tag_text title_tag) ≠ "" →
  (String.length (tag_text title_tag) = 10 ∨ String.length (tag_text title_tag) = 60 →
   issues_of "Title Issues" r = [] ∧ has_key "Title Issues" r = false)
  ∧ (String.length (tag_text title_tag) = 9 →
     issues_of "Title Issues" r = ["Title Tag Length Issue (Current: 9 chars)"])
  ∧ (String.length (tag_text title_tag) = 61 →
     issues_of "Title Issues" r = ["Title Tag Length Issue (Current: 61 chars)"]).
Proof.
  intros Hr Hfind Hstrip.
  destruct (title_issues_of _ _ _ _ Hr) as [-> ->].
  rewrite (title_issues_present _ _ Hfind Hstrip).
  split; [|split].
  - by intros [-> | ->].
  - by intros ->.
  - by intros ->.
Qed.

(** C5 (amended). For a parsed document with at least one H1 and at least
    one H3: if it has no H2 the analyzer emits the "Missing H2" heading
    issue; if it has at least one H2 the analyzer emits neither "Missing H2"
    nor "Missing H3", and it emits no heading-hierarchy issue at all exactly
    when H4, H5 and H6 are each present as well. *)
Theorem heading_hierarchy_gaps base url soup r :
  _get_page_seo_issues base url soup = Some r →
  Soup.find_all "h1" soup ≠ [] →
  Soup.find_all "h3" soup ≠ [] →
  (Soup.find_all "h2" soup = [] →
   "Potential Heading Hierarchy Issue (Missing H2)"
     ∈ issues_of "Heading Structure Issues" r)
  ∧ (Soup.find_all "h2" soup ≠ [] →
     ("Potential Heading Hierarchy Issue (Missing H2)"
        ∉ issues_of "Heading Structure Issues" r)
     ∧ ("Potential Heading Hierarchy Issue (Missing H3)"
          ∉ issues_of "Heading Structure Issues" r)
     ∧ ((∀ k, hierarchy_issue k ∉ issues_of "Heading Structure Issues" r)
        ↔ Soup.find_all "h4" soup ≠ [] ∧ Soup.find_all "h5" soup ≠ []
          ∧ Soup.find_all "h6" soup ≠ [])).
Proof.
  intros Hr H1 H3.
  rewrite (heading_issues_of _ _ _ _ Hr).
  unfold heading_structure_issues, headings. cbn [flat_map seq Nat.add].
  change (Soup.find_all ("h" +:+ Str.of_nat 1) soup) with (Soup.find_all "h1" soup).
  change (Soup.find_all ("h" +:+ Str.of_nat 2) soup) with (Soup.find_all "h2" soup).
  change (Soup.find_all ("h" +:+ Str.of_nat 3) soup) with (Soup.find_all "h3" soup).
  change (Soup.find_all ("h" +:+ Str.of_nat 4) soup) with (Soup.find_all "h4" soup).
  change (Soup.find_all ("h" +:+ Str.of_nat 5) soup) with (Soup.find_all "h5" soup).
  change (Soup.find_all ("h" +:+ Str.of_nat 6) soup) with (Soup.find_all "h6" soup).
  destruct (Soup.find_all "h1" soup) as [|a1 [|b1 l1]]; [done|..];
    destruct (Soup.find_all "h3" soup) as [|a3 l3]; try done;
    destruct (Soup.find_all "h2" soup) as [|a2 l2];
    (split; [intros Hh2; try done | intros Hh2; try done]).
  all: try (destruct (Soup.find_all "h4" soup), (Soup.find_all "h5" soup),
             (Soup.find_all "h6" soup); apply (bool_decide_unpack _); vm_compute; reflexivity).
  all: split; [|split].
  all: try (destruct (Soup.find_all "h4" soup), (Soup.find_all "h5" soup),
             (Soup.find_all "h6" soup); apply (bool_decide_unpack _); vm_compute; reflexivity).
  all: destruct (Soup.find_all "h4" soup) as [|a4 l4],
         (Soup.find_all "h5" soup) as [|a5 l5],
         (Soup.find_all "h6" soup) as [|a6 l6];
       cbn [nonempty negb andb app length Nat.ltb Nat.leb].
  all: split; [intros Hall | intros (? & ? & ?); try done].
  all: try (exfalso; first [ by apply (Hall 4); repeat constructor
                           | by apply (Hall 5); repeat constructor
                           | by apply (Hall 6); repeat constructor ]).
  all: try done.
  all: intros k Hk; repeat (apply elem_of_cons in Hk as [Hk|Hk]; [discriminate|]);
         by apply elem_of_nil in Hk.
Qed.

(** ** Further properties of the analyzer *)

Lemma to_uint_nonnil n : Nat.to_uint n ≠ Decimal.Nil.
Proof.
  intros Hnil. pose proof (DecimalNat.Unsigned.to_of (Nat.to_uint n)) as Hn.
  rewrite DecimalNat.Unsigned.of_to, Hnil in Hn. discriminate Hn.
Qed.

Lemma of_nat_inj j k : Str.of_nat j = Str.of_nat k → j = k.
Proof.
  unfold Str.of_nat. intros Heq.
  apply (f_equal NilZero.uint_of_string) in Heq.
  rewrite !NilZero.usu in Heq by apply to_uint_nonnil.
  injection Heq as Heq. by apply DecimalNat.Unsigned.to_uint_inj.
Qed.

Lemma length_append (s t : string) :
  String.length (s +:+ t) = String.length s + String.length t.
Proof. induction s as [|a s IH]; simpl; [done|]. by rewrite <-IH. Qed.

Lemma append_inj_r (s t1 t2 : string) : t1 +:+ s = t2 +:+ s → t1 = t2.
Proof.
  intros Heq.
  assert (String.length t1 = String.length t2) as Hlen.
  { apply (f_equal String.length) in Heq. rewrite !length_append in Heq. lia. }
  revert t2 Heq Hlen. induction t1 as [|a t1 IH]; intros [|b t2]; simpl; try done.
  intros [= -> Heq] [= Hlen]. f_equal. by apply IH.
Qed.

Lemma hierarchy_issue_inj j k : hierarchy_issue j = hierarchy_issue k → j = k.
Proof.
  unfold hierarchy_issue. intros Heq.
  apply (inj (String.app _)) in Heq. apply append_inj_r in Heq.
  by apply of_nat_inj.
Qed.

(** The issues of the loop [for i in range(1, 6)]. *)
Lemma hierarchy_part_spec soup x :
  x ∈ flat_map (λ i,
        if nonempty (headings soup i) && negb (nonempty (headings soup (i + 1)))
        then [hierarchy_issue (i + 1)]
        else []) (seq 1 5)
  ↔ ∃ i, 1 ≤ i ≤ 5 ∧ headings soup i ≠ [] ∧ headings soup (i + 1) = []
         ∧ x = hierarchy_issue (i + 1).
Proof.
  rewrite list_elem_of_In, in_flat_map. split.
  - intros (i & Hi%in_seq & Hx). exists i.
    destruct (headings soup i) as [|a l]; simpl in Hx; [done|].
    destruct (headings soup (i + 1)) as [|b l']; simpl in Hx; [|done].
    destruct Hx as [<-|[]]. repeat split; try done; lia.
  - intros (i & Hi & Hp & Ha & ->). exists i. split; [apply in_seq; lia|].
    rewrite Ha. destruct (headings soup i); [done|]. simpl. by left.
Qed.

(** X1. The heading rules as the analyzer applies them: "No H1 Tag Found"
    is reported exactly when the document has no h1, "Multiple H1 Tags"
    exactly when it has more than one, and, whatever the number of h1
    elements, "Missing H<k>" is reported exactly for the levels k = 2..6
    that are absent while level k-1 is present. *)
Theorem heading_rules base url soup r :
  _get_page_seo_issues base url soup = Some r →
  ("No H1 Tag Found" ∈ issues_of "Heading Structure Issues" r
   ↔ Soup.find_all "h1" soup = [])
  ∧ ("Multiple H1 Tags" ∈ issues_of "Heading Structure Issues" r
     ↔ 1 < length (Soup.find_all "h1" soup))
  ∧ (∀ k, hierarchy_issue k ∈ issues_of "Heading Structure Issues" r
          ↔ 2 ≤ k ≤ 6 ∧ headings soup (k - 1) ≠ [] ∧ headings soup k = []).
Proof.
  intros Hr. rewrite (heading_issues_of _ _ _ _ Hr).
  unfold heading_structure_issues.
  change (headings soup 1) with (Soup.find_all "h1" soup).
  split; [|split].
  - rewrite elem_of_app, hierarchy_part_spec. split.
    + intros [Hin|(i & _ & _ & _ & Hx)]; [|discriminate Hx].
      destruct (Soup.find_all "h1" soup) as [|a [|b l]]; simpl in Hin; [done|..].
      * by apply elem_of_nil in Hin.
      * apply elem_of_cons in Hin as [Hin|Hin]; [discriminate|by apply elem_of_nil in Hin].
    + intros ->. left. simpl. by left.
  - rewrite elem_of_app, hierarchy_part_spec. split.
    + intros [Hin|(i & _ & _ & _ & Hx)]; [|discriminate Hx].
      destruct (Soup.find_all "h1" soup) as [|a [|b l]]; simpl in Hin |- *.
      * apply elem_of_cons in Hin as [Hin|Hin]; [discriminate|by apply elem_of_nil in Hin].
      * by apply elem_of_nil in Hin.
      * lia.
    + intros Hlen. left.
      destruct (Soup.find_all "h1" soup) as [|a [|b l]]; simpl in Hlen |- *; [lia..|].
      by left.
  - intros k. rewrite elem_of_app, hierarchy_part_spec. split.
    + intros [Hin|(i & Hi & Hp & Ha & Hx)].
      * destruct (Soup.find_all "h1" soup) as [|a [|b l]]; simpl in Hin.
        -- apply elem_of_cons in Hin as [Hin|Hin]; [discriminate|by apply elem_of_nil in Hin].
        -- by apply elem_of_nil in Hin.
        -- apply elem_of_cons in Hin as [Hin|Hin]; [discriminate|by apply elem_of_nil in Hin].
      * apply hierarchy_issue_inj in Hx as ->.
        replace (i + 1 - 1) with i by lia. repeat split; try done; lia.
    + intros (Hk & Hp & Ha). right. exists (k - 1).
      replace (k - 1 + 1) with k by lia. repeat split; try done; lia.
Qed.

Lemma meta_issues_of base url soup r :
  _get_page_seo_issues base url soup = Some r →
  issues_of "Meta Description Issues" r = meta_description_issues soup
  ∧ has_key "Meta Description Issues" r = nonempty (meta_description_issues soup).
Proof.
  intros (links & _ & ->)%get_page_seo_issues_inv.
  apply (record_shape url (title_issues soup) (meta_description_issues soup)
           (heading_structure_issues soup) links (image_issues soup)).
Qed.

(** X2. For the first [<meta name="description">] of a document: without a
    [content] attribute, or with a blank one, the issue is "Missing Meta
    Description"; with a content that is not blank there is no issue (and
    no key in the record) when its length is within 50..160, and the length
    issue, stating the length, when it is below 50 or above 160. *)
Theorem meta_description_boundaries base url soup r meta_desc :
  _get_page_seo_issues base url soup = Some r →
  Soup.find_attrs "meta" "name" "description" soup = Some meta_desc →
  (tag_attrs meta_desc !! "content" = None →
   issues_of "Meta Description Issues" r = ["Missing Meta Description"])
  ∧ (∀ content,
       tag_attrs meta_desc !! "content" = Some content →
       (Str.strip content = "" →
        issues_of "Meta Description Issues" r = ["Missing Meta Description"])
       ∧ (Str.strip content ≠ "" →
          (50 ≤ String.length content ≤ 160 →
           issues_of "Meta Description Issues" r = []
           ∧ has_key "Meta Description Issues" r = false)
          ∧ (String.length content < 50 ∨ 160 < String.length content →
             issues_of "Meta Description Issues" r
             = ["Meta Description Length Issue (Current: "
                  +:+ Str.of_nat (String.length content) +:+ " chars)"]))).
Proof.
  intros Hr Hfind. destruct (meta_issues_of _ _ _ _ Hr) as [-> ->].
  unfold meta_description_issues, Soup.get. rewrite Hfind.
  split.
  - by intros ->.
  - intros content ->. simpl. split; [by intros ->|].
    intros Hstrip. destruct (Str.strip content) eqn:Hs; [done|]. simpl.
    split.
    + intros [Hlo Hhi].
      rewrite (proj2 (Nat.ltb_ge _ _)) by done.
      rewrite (proj2 (Nat.ltb_ge _ _)) by done. done.
    + intros [Hlt|Hlt].
      * by rewrite (proj2 (Nat.ltb_lt _ _)) by done.
      * rewrite (proj2 (Nat.ltb_lt 160 _)) by done. by rewrite orb_true_r.
Qed.

Lemma external_links_Some base links l :
  external_links base links = Some l →
  l = filter (λ h, is_external_href base h = true)
        ((λ link, Soup.get link "href" "") <$> links).
Proof.
  revert l. induction links as [|link links IH]; intros l.
  - by intros [= <-].
  - cbn [external_links].
    destruct (urlparse (Soup.get link "href" "")) as [p|] eqn:Hp; [|done].
    destruct (external_links base links) as [rest|]; [|done].
    intros [= <-]. rewrite fmap_cons, filter_cons, <-(IH rest eq_refl).
    assert (is_external_href base (Soup.get link "href" "")
            = bool_decide (netloc p ≠ base)) as Hext.
    { unfold is_external_href. by rewrite Hp. }
    destruct (decide (netloc p ≠ base)) as [Hne|He].
    + rewrite decide_True; [done|]. rewrite Hext. by apply bool_decide_eq_true_2.
    + rewrite decide_False; [done|]. rewrite Hext. by rewrite bool_decide_eq_false_2.
Qed.

Lemma external_links_None base links :
  external_links base links = None
  ↔ Exists (λ h, urlparse h = None) ((λ link, Soup.get link "href" "") <$> links).
Proof.
  induction links as [|link links IH]; simpl.
  - split; [done|]. by intros ?%Exists_nil.
  - rewrite Exists_cons, <-IH.
    destruct (urlparse (Soup.get link "href" "")) as [p|]; [|by split; [left|]].
    destruct (external_links base links); split; try done.
    + by intros [?|?].
    + by right.
Qed.

(** X3. The link rule as the code applies it: the hrefs counted are those
    whose own [urlparse] (without resolution against the page URL) yields
    a netloc other than [base_domain]; "High Number of External Links" is
    reported exactly when they are more than ten, with their number in the
    text. *)
Theorem link_rule base url soup r :
  _get_page_seo_issues base url soup = Some r →
  issues_of "Link Issues" r
  = (if 10 <? length (filter (λ h, is_external_href base h = true) (hrefs soup))
     then ["High Number of External Links ("
             +:+ Str.of_nat (length (filter (λ h, is_external_href base h = true)
                                            (hrefs soup)))
             +:+ ")"]
     else []).
Proof.
  intros (links & Hlinks & ->)%get_page_seo_issues_inv.
  destruct (record_shape url (title_issues soup) (meta_description_issues soup)
              (heading_structure_issues soup) links (image_issues soup))
    as (_ & _ & _ & [Hl _] & _).
  simpl in Hl. rewrite Hl. clear Hl.
  unfold link_issues in Hlinks.
  destruct (external_links base (Soup.find_all_with "a" "href" soup)) as [ext|] eqn:Hext;
    [|done].
  injection Hlinks as <-. by rewrite (external_links_Some _ _ _ Hext).
Qed.

Lemma get_page_seo_issues_bad_href base url soup :
  Exists (λ h, urlparse h = None) (hrefs soup) →
  _get_page_seo_issues base url soup = None.
Proof.
  intros Hbad%(external_links_None base).
  unfold _get_page_seo_issues, link_issues. by rewrite Hbad.
Qed.

(** X4. The analyzer raises (here: returns [None]) exactly when the
    document has an anchor whose href [urlparse] rejects; no title, meta,
    heading or image content makes it raise, and neither the page URL nor
    [base_domain] matters. *)
Theorem analysis_raises_iff base url soup :
  _get_page_seo_issues base url soup = None
  ↔ Exists (λ h, urlparse h = None) (hrefs soup).
Proof.
  unfold _get_page_seo_issues, link_issues, hrefs.
  rewrite <-(external_links_None base).
  by destruct (external_links base (Soup.find_all_with "a" "href" soup)).
Qed.

Lemma image_issues_of base url soup r :
  _get_page_seo_issues base url soup = Some r →
  issues_of "Image SEO Issues" r = image_issues soup.
Proof.
  intros (links & _ & ->)%get_page_seo_issues_inv.
  apply (record_shape url (title_issues soup) (meta_description_issues soup)
           (heading_structure_issues soup) links (image_issues soup)).
Qed.

(** X5. The image rule: no image issue is reported exactly when every
    [img] element has an [alt] attribute that is not empty; otherwise one
    issue is reported whose text starts with the number of [img] elements
    whose [alt] is absent or empty. *)
Theorem image_rule base url soup r :
  _get_page_seo_issues base url soup = Some r →
  (issues_of "Image SEO Issues" r = []
   ↔ ∀ img, img ∈ Soup.find_all "img" soup →
            ∃ alt, tag_attrs img !! "alt" = Some alt ∧ alt ≠ "")
  ∧ (issues_of "Image SEO Issues" r ≠ [] →
     issues_of "Image SEO Issues" r
     = [Str.of_nat (length (filter (λ img, tag_attrs img !! "alt" = None
                                           ∨ tag_attrs img !! "alt" = Some "")
                                   (Soup.find_all "img" soup)))
          +:+ " Images Missing Alt Text"]).
Proof.
  intros Hr. rewrite (image_issues_of _ _ _ _ Hr).
  unfold image_issues, images_without_alt.
  assert (∀ img : Tag,
            Str.truthy (Soup.get img "alt" "") = false
            ↔ tag_attrs img !! "alt" = None ∨ tag_attrs img !! "alt" = Some "") as Halt.
  { intros img. unfold Soup.get.
    destruct (tag_attrs img !! "alt") as [[|a alt]|]; simpl; naive_solver. }
  rewrite length_fmap.
  rewrite (list_filter_iff _ _ (Soup.find_all "img" soup) Halt).
  set (missing := filter _ (Soup.find_all "img" soup)).
  split.
  - split.
    + intros Hnone img Himg.
      assert (img ∉ missing) as Hnot.
      { destruct missing; [apply not_elem_of_nil|done]. }
      destruct (tag_attrs img !! "alt") as [[|a alt]|] eqn:Ha.
      * exfalso. apply Hnot. apply list_elem_of_filter. split; [by right|done].
      * by eexists.
      * exfalso. apply Hnot. apply list_elem_of_filter. split; [by left|done].
    + intros Hall. destruct missing as [|img l] eqn:Hm; [done|].
      assert (img ∈ missing) as Hin by (rewrite Hm; left).
      apply list_elem_of_filter in Hin as [Hbad Himg].
      destruct (Hall img Himg) as (alt & Ha & Hne). rewrite Ha in Hbad.
      naive_solver.
  - by destruct missing.
Qed.

(** X6. A record returned by the analyzer is sparse and ordered: its keys
    are distinct and appear in the order URL, Title, Meta Description,
    Heading Structure, Link, Image; every value it holds is truthy (no
    empty issue list); and it starts with the URL entry when the URL is not
    the empty string. *)
Theorem record_is_sparse base url soup r :
  _get_page_seo_issues base url soup = Some r →
  r.*1 `sublist_of` issue_keys
  ∧ NoDup r.*1
  ∧ Forall (λ kv, truthy kv.2 = true) r
  ∧ (url ≠ "" → head r = Some ("URL", VStr url)).
Proof.
  intros (links & _ & ->)%get_page_seo_issues_inv.
  set (seo_issues := [_; _; _; _; _; _]).
  assert (seo_issues.*1 = issue_keys) as Hkeys by done.
  assert (filter (λ kv : string * Value, truthy kv.2 = true) seo_issues
            `sublist_of` seo_issues) as Hsub by apply sublist_filter.
  split; [|split; [|split]].
  - rewrite <-Hkeys. by apply fmap_sublist.
  - eapply sublist_NoDup; [|by apply fmap_sublist].
    rewrite Hkeys. apply (bool_decide_unpack _). vm_compute. reflexivity.
  - apply Forall_forall. by intros kv [? _]%list_elem_of_filter.
  - intros Hurl. subst seo_issues. rewrite filter_cons.
    rewrite decide_True; [done|]. simpl. by destruct url.
Qed.

(** The record of a page whose URL is not the empty string starts with the
    URL entry. *)
Lemma record_has_url base url soup r :
  _get_page_seo_issues base url soup = Some r →
  url ≠ "" →
  dict_get "URL" r = Some (VStr url) ∧ nonempty r = true.
Proof.
  intros (links & _ & ->)%get_page_seo_issues_inv Hurl.
  rewrite filter_cons. rewrite decide_True by (by destruct url). done.
Qed.
End AnalyzerFacts.

(** ** The console report and the export *)

Section ReportFacts.
Variable repr_of_list : list string → string.

Local Abbreviation display_records := (display_records repr_of_list).
Local Abbreviation display_seo_results := (display_seo_results repr_of_list).
Local Abbreviation render_txt := (render_txt repr_of_list).
Local Abbreviation render_md_records := (render_md_records repr_of_list).
Local Abbreviation render_md := (render_md repr_of_list).

Lemma display_records_raised results :
  (display_records results).2 = true
  ↔ Exists (λ r, dict_get "URL" r = None) results.
Proof.
  induction results as [|r results IH]; simpl.
  - split; [done|]. by intros ?%Exists_nil.
  - rewrite Exists_cons. destruct (dict_get "URL" r) as [url|]; [|by split; [left|]].
    destruct (display_records results) as [lines raised]. simpl in *.
    rewrite IH. split; [by right|]. by intros [?|?].
Qed.

(** X16. [display_seo_results] on an empty list prints the single line
    "No SEO issues found ..." and returns [None]; on a list whose records
    all have a ['URL'] key it prints the banner, then for each record its
    URL line and category lines, and returns the list itself; and it raises
    [KeyError] exactly when the list has a record without ['URL'] key. *)
Theorem display_outcome results :
  (results = [] →
   display_seo_results results
   = (["No SEO issues found or unable to crawl the website."], Returned None))
  ∧ (results ≠ [] →
     Forall (λ r, is_Some (dict_get "URL" r)) results →
     display_seo_results results
     = ((nl +:+ "--- SEO AUDIT RESULTS ---")
          :: flat_map (λ r, (nl +:+ "URL: "
                               +:+ format_value repr_of_list (default (VStr "") (dict_get "URL" r)))
                              :: category_lines r) results,
        Returned (Some results)))
  ∧ ((display_seo_results results).2 = Raised "KeyError"
     ↔ Exists (λ r, dict_get "URL" r = None) results).
Proof.
  split; [by intros ->|]. split.
  - intros Hne Hall. unfold display_seo_results.
    rewrite (proj2 (nonempty_true results) Hne). simpl. clear Hne.
    assert (display_records results
            = (flat_map (λ r, (nl +:+ "URL: "
                                 +:+ format_value repr_of_list
                                       (default (VStr "") (dict_get "URL" r)))
                                :: category_lines r) results, false)) as ->; [|done].
    induction Hall as [|r results [url Hurl] _ IH]; [done|].
    simpl. rewrite Hurl, IH. simpl. done.
  - rewrite <-display_records_raised. unfold display_seo_results.
    destruct (nonempty results) eqn:Hn; simpl.
    + destruct (display_records results) as [lines [|]]; simpl; split; done.
    + by destruct results.
Qed.

(** X17. The report loses nothing: when no record lacks its URL, every
    entry of every record other than the URL whose value is not empty is
    printed as a line [key:], and each of its issues as a line
    ["  - issue"]. *)
Theorem display_is_lossless results r key issues issue :
  Forall (λ r, is_Some (dict_get "URL" r)) results →
  r ∈ results →
  (key, VList issues) ∈ r →
  key ≠ "URL" →
  issue ∈ issues →
  (key +:+ ":") ∈ (display_seo_results results).1
  ∧ ("  - " +:+ issue) ∈ (display_seo_results results).1.
Proof.
  intros Hall Hr Hentry Hkey Hissue.
  assert (results ≠ []) as Hne by (intros ->; by apply elem_of_nil in Hr).
  assert (∀ line, line ∈ category_lines r → line ∈ (display_seo_results results).1)
    as Hlines.
  { intros line Hline. unfold display_seo_results.
    rewrite (proj2 (nonempty_true results) Hne). simpl. clear Hne.
    destruct (display_records results) as [lines raised] eqn:Hd. simpl. right.
    revert lines raised Hd.
    induction Hall as [|r1 results [url Hurl] _ IH]; intros lines raised Hd;
      [by apply elem_of_nil in Hr|].
    simpl in Hd. rewrite Hurl in Hd.
    destruct (display_records results) as [lines' raised'] eqn:Hd'.
    injection Hd as <- <-. right. apply elem_of_app.
    apply elem_of_cons in Hr as [->|Hr]; [by left|].
    right. by eapply IH. }
  assert (∀ line, line ∈ (key +:+ ":") :: ((λ i, "  - " +:+ i) <$> issues) →
                  line ∈ category_lines r) as Hcat.
  { intros line Hline. unfold category_lines.
    apply list_elem_of_In, in_flat_map. exists (key, VList issues).
    split; [by apply list_elem_of_In|].
    rewrite bool_decide_eq_false_2 by done.
    assert (truthy (VList issues) = true) as ->.
    { destruct issues; [by apply elem_of_nil in Hissue|done]. }
    cbn [negb andb]. by apply list_elem_of_In. }
  split; apply Hlines, Hcat.
  - left.
  - right. apply list_elem_of_fmap. by exists issue.
Qed.

Lemma append_assoc (a b c : string) : (a +:+ b) +:+ c = a +:+ b +:+ c.
Proof.
  induction a as [|x a IH]; [done|].
  change (String x ((a +:+ b) +:+ c) = String x (a +:+ b +:+ c)). by rewrite IH.
Qed.

Lemma append_nil_r (a : string) : a +:+ "" = a.
Proof.
  induction a as [|x a IH]; [done|].
  change (String x (a +:+ "") = String x a). by rewrite IH.
Qed.

Lemma concat_cons (x : string) (xs : list string) :
  String.concat "" (x :: xs) = x +:+ String.concat "" xs.
Proof. destruct xs; simpl; [by rewrite append_nil_r|done]. Qed.

Lemma concat_app (l1 l2 : list string) :
  String.concat "" (l1 ++ l2) = String.concat "" l1 +:+ String.concat "" l2.
Proof.
  induction l1 as [|x l1 IH]; [done|].
  rewrite <-app_comm_cons, !concat_cons, IH. by rewrite append_assoc.
Qed.

Lemma stream_of_cons line lines :
  stream_of (line :: lines) = line +:+ nl +:+ stream_of lines.
Proof. unfold stream_of. by rewrite fmap_cons, concat_cons, append_assoc. Qed.

Lemma stream_of_app l1 l2 : stream_of (l1 ++ l2) = stream_of l1 +:+ stream_of l2.
Proof. unfold stream_of. by rewrite fmap_app, concat_app. Qed.

(** The text of the categories in the text file is what the report
    prints for them. *)
Lemma txt_categories_stream result :
  txt_categories result = stream_of (category_lines result).
Proof.
  unfold txt_categories, category_lines.
  induction result as [|[issue_type issues] result IH]; [done|].
  cbn [flat_map]. rewrite concat_app, stream_of_app, IH. f_equal.
  destruct (negb (bool_decide (issue_type = "URL")) && truthy issues); [|done].
  rewrite stream_of_cons, concat_cons, !append_assoc. f_equal.
  unfold stream_of. rewrite <-list_fmap_compose. done.
Qed.

(** The three renderings stop at the same record. *)
Lemma render_raised results :
  (render_txt results).2 = (display_records results).2
  ∧ (render_md results).2 = (display_records results).2.
Proof.
  unfold render_md.
  induction results as [|r results [IH1 IH2]]; [done|].
  simpl. destruct (dict_get "URL" r) as [url|]; [|done].
  destruct (display_records results) as [lines raised].
  destruct (render_txt results) as [text raised'].
  destruct (render_md_records results) as [text'' raised'']. done.
Qed.

(** X18. The text export is the console report without its banner: the
    [txt] and [md] branches of [save_output] and [display_seo_results] stop
    at the same record when a ['URL'] key is missing, and the characters the
    report prints after the banner, followed by a newline, are a newline
    followed by the text of the [txt] file. *)
Theorem txt_export_is_report results :
  (render_txt results).2 = (display_records results).2
  ∧ (render_md results).2 = (display_records results).2
  ∧ stream_of (display_records results).1 +:+ nl = nl +:+ (render_txt results).1.
Proof.
  split; [apply render_raised|]. split; [apply render_raised|].
  induction results as [|r results IH]; [done|].
  simpl. destruct (dict_get "URL" r) as [url|]; [|done].
  destruct (display_records results) as [lines raised].
  destruct (render_txt results) as [text raised'].
  simpl in *.
  rewrite stream_of_cons, stream_of_app, txt_categories_stream.
  set (fv := format_value repr_of_list url).
  set (cat := stream_of (category_lines r)).
  rewrite (append_assoc (nl +:+ "URL: " +:+ fv)), (append_assoc nl ("URL: " +:+ fv)).
  rewrite (append_assoc "URL: " fv), (append_assoc nl _ nl).
  by rewrite (append_assoc cat _ nl), IH.
Qed.

End ReportFacts.

Section ExportFacts.
Variable repr_of_list : list string → string.
Variable isdir : string → bool.
Variable path_join : string → string → string.
Variable open_for_writing : string → option string.
Variable pandas_write : string → list PageIssues → string → option string.

Local Abbreviation write_file :=
  (write_file repr_of_list open_for_writing pandas_write).
Local Abbreviation save_loop :=
  (save_loop repr_of_list isdir path_join open_for_writing pandas_write).
Local Abbreviation save_output :=
  (save_output repr_of_list isdir path_join open_for_writing pandas_write).

(** The [try] block writes at most one file, at the path it is given. *)
Lemma write_file_events ext full_path rows e :
  e ∈ (write_file ext full_path rows).1 →
  ∃ content, e = Write full_path content ∧ content_matches ext rows content.
Proof.
  unfold write_file, write_text, write_table.
  repeat case_decide; subst;
    repeat match goal with
      | |- context [match ?x with _ => _ end] => destruct x
      end; simpl;
    intros He; try (by apply elem_of_nil in He);
    apply list_elem_of_singleton in He as ->; eexists; (split; [done|]); simpl; auto.
Qed.

Lemma save_loop_events ext rows n :
  ∀ inputs, length inputs ≤ n →
    (∀ path content,
       Write path content ∈ (save_loop ext rows inputs).1 →
       ∃ dir, isdir dir = true
              ∧ path = path_join dir ("audit-results." +:+ ext)
              ∧ content_matches ext rows content)
    ∧ ((save_loop ext rows inputs).2 = Returned ()
       ∨ (save_loop ext rows inputs).2 = Raised "EOFError").
Proof.
  induction n as [|n IH]; intros [|line inputs] Hlen; simpl in Hlen; try lia.
  - simpl. split; [|by right]. intros path content Hin.
    apply list_elem_of_singleton in Hin. done.
  - simpl. split; [|by right]. intros path content Hin.
    apply list_elem_of_singleton in Hin. done.
  - simpl. set (save_path := str_or (Str.strip line) ".").
    destruct (isdir save_path) eqn:Hdir; simpl.
    + pose proof (write_file_events ext (path_join save_path ("audit-results." +:+ ext)) rows)
        as Hwritten.
      destruct (write_file ext _ rows) as [written [msg|]]; simpl in Hwritten.
      * assert (∀ path content (tail : list Event),
                  (∀ p c, Write p c ∈ tail → False) →
                  Write path content ∈ Prompt path_prompt :: written ++ tail →
                  ∃ dir, isdir dir = true
                         ∧ path = path_join dir ("audit-results." +:+ ext)
                         ∧ content_matches ext rows content) as Hfailed.
        { intros path content tail Htail Hin.
          apply elem_of_cons in Hin as [Hin|Hin]; [done|].
          apply elem_of_app in Hin as [Hin|Hin]; [|by destruct (Htail _ _ Hin)].
          destruct (Hwritten _ Hin) as (content' & [= -> ->] & Hc). by exists save_path. }
        assert (∀ p c, Write p c ∈ [Print ("Error saving file: " +:+ msg); Prompt retry_prompt]
                       → False) as Hnone.
        { intros p c Hin. repeat (apply elem_of_cons in Hin as [Hin|Hin]; [done|]).
          by apply elem_of_nil in Hin. }
        destruct inputs as [|retry inputs]; simpl.
        { split; [|by right]. intros path content. by apply Hfailed. }
        destruct (says_yes retry); simpl.
        -- destruct (IH inputs ltac:(simpl in Hlen; lia)) as [Hw Ho].
           destruct (save_loop ext rows inputs) as [events outcome]. simpl in *.
           split; [|done]. intros path content Hin.
           apply elem_of_cons in Hin as [Hin|Hin]; [done|].
           apply elem_of_app in Hin as [Hin|Hin]; [|by apply Hw].
           apply (Hfailed path content _ Hnone). apply elem_of_cons. by right.
        -- split; [|by left]. intros path content. by apply Hfailed.
      * split; [|by left]. intros path content Hin.
        apply elem_of_cons in Hin as [Hin|Hin]; [done|].
        apply elem_of_app in Hin as [Hin|Hin].
        -- destruct (Hwritten _ Hin) as (content' & [= -> ->] & Hc). by exists save_path.
        -- by apply list_elem_of_singleton in Hin.
    + destruct (IH inputs ltac:(lia)) as [Hw Ho].
      destruct (save_loop ext rows inputs) as [events outcome]. simpl in *.
      split; [|done]. intros path content Hin.
      repeat (apply elem_of_cons in Hin as [Hin|Hin]; [done|]). by apply Hw.
Qed.

(** The extension [save_output] derives from the answer to the file-type
    question. *)
Lemma file_ext_cases (line : string) :
  let file_ext :=
    match file_type_of (str_or (Str.strip line) "1") file_types with
    | Some (ext, _) => ext
    | None => "txt"
    end in
  (Str.strip line = "2" ∧ file_ext = "csv")
  ∨ (Str.strip line = "3" ∧ file_ext = "xlsx")
  ∨ (Str.strip line = "4" ∧ file_ext = "md")
  ∨ ((Str.strip line ∉ ["2"; "3"; "4"]) ∧ file_ext = "txt").
Proof.
  simpl. destruct (Str.strip line) as [|a s] eqn:Hs.
  { right; right; right. split; [|done].
    rewrite !elem_of_cons, elem_of_nil. naive_solver. }
  unfold str_or, file_types, file_type_of. cbn [Str.truthy].
  destruct (decide (String a s = "2")) as [->|H2]; [by left|].
  destruct (decide (String a s = "3")) as [->|H3]; [by right; left|].
  destruct (decide (String a s = "4")) as [->|H4]; [by right; right; left|].
  right; right; right. split; [rewrite !elem_of_cons, elem_of_nil; naive_solver|].
  repeat case_decide; congruence.
Qed.

(** X19. [save_output] writes a file only after the user has answered the
    first question with y or yes (in any letter case), only into a directory
    for which [os.path.isdir] holds, and only under the name
    [audit-results.<ext>], where the extension is csv, xlsx or md when the
    answer to the file-type question, stripped, is 2, 3 or 4, and txt for
    every other answer (1, nothing, or an invalid choice); the file holds
    text for txt and md and the table of the records for csv and xlsx. *)
Theorem save_output_writes_safely results inputs path content :
  Write path content ∈ (save_output results inputs).1 →
  ∃ answer line rest dir ext,
    inputs = answer :: line :: rest
    ∧ says_yes answer = true
    ∧ isdir dir = true
    ∧ ((Str.strip line = "2" ∧ ext = "csv")
       ∨ (Str.strip line = "3" ∧ ext = "xlsx")
       ∨ (Str.strip line = "4" ∧ ext = "md")
       ∨ ((Str.strip line ∉ ["2"; "3"; "4"]) ∧ ext = "txt"))
    ∧ path = path_join dir ("audit-results." +:+ ext)
    ∧ content_matches ext results content.
Proof.
  unfold save_output. destruct inputs as [|answer [|line rest]].
  - intros Hin. by apply list_elem_of_singleton in Hin.
  - destruct (says_yes answer); simpl; intros Hin;
      repeat (apply elem_of_cons in Hin as [Hin|Hin]; [done|]);
      by apply elem_of_nil in Hin.
  - destruct (says_yes answer) eqn:Hyes; cbn [negb].
    2:{ intros Hin. repeat (apply elem_of_cons in Hin as [Hin|Hin]; [done|]).
        by apply elem_of_nil in Hin. }
    pose proof (file_ext_cases line) as Hext. cbv zeta in Hext.
    set (chosen := file_type_of (str_or (Str.strip line) "1") file_types) in *.
    assert (∃ notice ext,
              (match chosen with
               | Some (ext, _) => ([], ext)
               | None => ([Print "Invalid choice. Defaulting to .txt"], "txt")
               end) = (notice, ext)
              ∧ (∀ p c, Write p c ∈ notice → False)
              ∧ ext = match chosen with Some (ext, _) => ext | None => "txt" end)
      as (notice & ext & -> & Hnotice & Hchosen).
    { destruct chosen as [[ext name]|]; eexists _, _; (split; [done|]); split; try done.
      - by intros p c ?%elem_of_nil.
      - intros p c Hin. by apply list_elem_of_singleton in Hin. }
    rewrite <-Hchosen in Hext.
    destruct (save_loop_events ext results (length rest) rest (le_n _)) as [Hw _].
    destruct (save_loop ext results rest) as [events outcome]. cbn [fst] in *.
    intros Hin. apply elem_of_cons in Hin as [Hin|Hin]; [done|].
    apply elem_of_app in Hin as [Hin|Hin].
    { apply elem_of_cons in Hin as [Hin|Hin]; [done|].
      apply list_elem_of_fmap in Hin as ([key [e name]] & Heq & _). done. }
    apply elem_of_app in Hin as [Hin|Hin]; [by apply list_elem_of_singleton in Hin|].
    apply elem_of_app in Hin as [Hin|Hin]; [by destruct (Hnotice _ _ Hin)|].
    destruct (Hw _ _ Hin) as (dir & Hdir & Hpath & Hc).
    by exists answer, line, rest, dir, ext.
Qed.

End ExportFacts.

(** ** The crawl loop *)

Section CrawlerFacts.
Context `{UrlLib}.
Variable session_get : list string → string → Response.
Variable sched : nat → nat.

Lemma frontier_update_refl c : frontier_update c c.
Proof. by destruct c. Qed.

Lemma frontier_update_trans c1 c2 c3 :
  frontier_update c1 c2 → frontier_update c2 c3 → frontier_update c1 c3.
Proof. unfold frontier_update. intros -> ->. by destruct c1. Qed.

Lemma offer_to_visit url c :
  to_visit_urls (offer url c)
  = if _is_valid_url c url && bool_decide (url ∉ visited_urls c)
       && bool_decide (url ∉ to_visit_urls c)
    then {[url]} ∪ to_visit_urls c else to_visit_urls c.
Proof. unfold offer. by destruct (_ && _). Qed.

Lemma offer_frontier_update url c : frontier_update c (offer url c).
Proof. unfold offer. destruct (_ && _); [done|apply frontier_update_refl]. Qed.

Lemma is_valid_url_frontier_update c c' url :
  frontier_update c c' → _is_valid_url c' url = _is_valid_url c url.
Proof. by intros ->. Qed.

Lemma follow_links_frontier_update current_url links c :
  frontier_update c (follow_links current_url links c).
Proof.
  revert c. induction links as [|link links IH]; intros c; simpl.
  - apply frontier_update_refl.
  - destruct (urljoin _ _); [|apply frontier_update_refl].
    eapply frontier_update_trans; [apply offer_frontier_update|apply IH].
Qed.

(** What the link loop can add to the frontier. *)
Lemma follow_links_to_visit current_url links c x :
  x ∈ to_visit_urls (follow_links current_url links c) →
  x ∈ to_visit_urls c ∨ (_is_valid_url c x = true ∧ x ∉ visited_urls c).
Proof.
  revert c. induction links as [|link links IH]; intros c; simpl; [by left|].
  destruct (urljoin _ _) as [full_url|]; [|by left].
  intros [Hx|[Hv Hx]]%IH.
  - rewrite offer_to_visit in Hx.
    destruct (_is_valid_url c full_url) eqn:Hvalid; simpl in Hx; [|by left].
    destruct (bool_decide (full_url ∉ visited_urls c)) eqn:Hvis; simpl in Hx; [|by left].
    destruct (bool_decide (full_url ∉ to_visit_urls c)); [|by left].
    apply elem_of_union in Hx as [->%elem_of_singleton|Hx]; [|by left].
    right. split; [done|]. by apply bool_decide_eq_true in Hvis.
  - right. pose proof (offer_frontier_update full_url c) as Hfu.
    rewrite (is_valid_url_frontier_update _ _ _ Hfu) in Hv.
    split; [done|]. by rewrite Hfu in Hx.
Qed.

Lemma follow_links_mono current_url links c :
  to_visit_urls c ⊆ to_visit_urls (follow_links current_url links c).
Proof.
  revert c. induction links as [|link links IH]; intros c; simpl; [done|].
  destruct (urljoin _ _) as [full_url|]; [|done].
  etrans; [|apply IH]. rewrite offer_to_visit. destruct (_ && _); set_solver.
Qed.

Local Abbreviation loop_body := (loop_body session_get).
Local Abbreviation iterate := (iterate session_get sched).
Local Abbreviation crawl_loop := (crawl_loop session_get sched).

(** The three ways an iteration can go, once [pop] has returned [u]. *)
Lemma loop_body_outcome k c u rest :
  set_pop k (to_visit_urls c) = Some (u, rest) →
  (u ∈ visited_urls c ∧ loop_body k c = set_to_visit_urls rest c)
  ∨ ((u ∉ visited_urls c) ∧ loop_body k c = log_request u (set_to_visit_urls rest c))
  ∨ ((u ∉ visited_urls c) ∧ ∃ ct soup r,
       session_get (requested c) u = HttpResponse ct soup
       ∧ is_html ct = true
       ∧ _get_page_seo_issues (base_domain c) u soup = Some r
       ∧ loop_body k c
         = follow_links u (Soup.find_all_with "a" "href" soup)
             (set_visited_urls ({[u]} ∪ visited_urls c)
                (set_seo_results
                   (if nonempty r then seo_results c ++ [r] else seo_results c)
                   (log_request u (set_to_visit_urls rest c))))).
Proof.
  intros Hpop. unfold loop_body. rewrite Hpop.
  case_bool_decide as Hvis; simpl in Hvis; [by left|].
  right. unfold visit. simpl.
  destruct (session_get (requested c) u) as [| |ct soup] eqn:Hget; [by left..|].
  destruct (is_html ct) eqn:Hct; simpl; [|by left].
  destruct (_get_page_seo_issues (base_domain c) u soup) as [r|] eqn:Hr; [|by left].
  right. split; [done|]. exists ct, soup, r. repeat split; try done.
  by destruct (nonempty r), c.
Qed.

Lemma loop_body_step k c :
  loop_cond c = true →
  ∃ u, u ∈ to_visit_urls c
    ∧ base_domain (loop_body k c) = base_domain c
    ∧ max_pages (loop_body k c) = max_pages c
    ∧ ((visited_urls (loop_body k c) = visited_urls c
        ∧ to_visit_urls (loop_body k c) = to_visit_urls c ∖ {[u]}
        ∧ seo_results (loop_body k c) = seo_results c
        ∧ (requested (loop_body k c) = requested c
           ∨ requested (loop_body k c) = requested c ++ [u]))
       ∨ ((u ∉ visited_urls c)
          ∧ visited_urls (loop_body k c) = {[u]} ∪ visited_urls c
          ∧ requested (loop_body k c) = requested c ++ [u]
          ∧ to_visit_urls c ∖ {[u]} ⊆ to_visit_urls (loop_body k c)
          ∧ ∀ x, x ∈ to_visit_urls (loop_body k c) →
                 x ∈ to_visit_urls c ∖ {[u]}
                 ∨ (_is_valid_url c x = true ∧ x ∉ visited_urls (loop_body k c)))).
Proof.
  intros [Hne _]%andb_true_iff.
  apply negb_true_iff, bool_decide_eq_false in Hne.
  destruct (set_pop_is_Some k _ Hne) as [[u rest] Hpop].
  destruct (set_pop_Some _ _ _ _ Hpop) as [Hu ->].
  exists u. split; [done|].
  destruct (loop_body_outcome k c u _ Hpop)
    as [[Hvis ->]|[[Hvis ->]|(Hvis & ct & soup & r & _ & _ & _ & ->)]].
  - repeat split; try done. left. repeat split; try done. by left.
  - repeat split; try done. left. repeat split; try done. by right.
  - set (c1 := set_visited_urls _ _).
    pose proof (follow_links_frontier_update u (Soup.find_all_with "a" "href" soup) c1) as Hfu.
    set (c2 := follow_links _ _ _) in *.
    assert (visited_urls c2 = {[u]} ∪ visited_urls c) as Hv by (by rewrite Hfu).
    split; [by rewrite Hfu|]. split; [by rewrite Hfu|].
    right. split; [done|]. split; [done|]. split; [by rewrite Hfu|].
    split; [apply (follow_links_mono u _ c1)|].
    intros x [Hx|[Hx1 Hx2]]%follow_links_to_visit; [by left|].
    right. split; [done|]. by rewrite Hv.
Qed.

Lemma iterate_S n i c :
  iterate (S n) i c
  = if loop_cond (iterate n i c)
    then loop_body (sched (i + n)) (iterate n i c)
    else iterate n i c.
Proof.
  revert i c. induction n as [|n IH]; intros i c.
  - simpl. by rewrite Nat.add_0_r.
  - change (iterate (S (S n)) i c)
      with (if loop_cond c then iterate (S n) (S i) (loop_body (sched i) c) else c).
    change (iterate (S n) i c)
      with (if loop_cond c then iterate n (S i) (loop_body (sched i) c) else c).
    destruct (loop_cond c) eqn:Hc.
    + rewrite IH. by replace (S i + n) with (i + S n) by lia.
    + by rewrite Hc.
Qed.

(** A property of the initial crawler that every iteration preserves
    holds at the head of the loop throughout the run. *)
Lemma iterate_ind (P : SEOCrawler → Prop) c :
  P c →
  (∀ k c', P c' → loop_cond c' = true → P (loop_body k c')) →
  ∀ n i, P (iterate n i c).
Proof.
  intros Hc Hstep n. induction n as [|n IH]; intros i; [done|].
  rewrite iterate_S. destruct (loop_cond (iterate n i c)) eqn:Hcond; [|apply IH].
  by apply Hstep.
Qed.

Lemma offer_disjoint url c : disjoint_sets c → disjoint_sets (offer url c).
Proof.
  unfold disjoint_sets. rewrite offer_to_visit.
  rewrite (offer_frontier_update url c). simpl.
  destruct (_is_valid_url c url); simpl; [|done].
  case_bool_decide; simpl; [|done]. case_bool_decide; set_solver.
Qed.

Lemma follow_links_disjoint current_url links c :
  disjoint_sets c → disjoint_sets (follow_links current_url links c).
Proof.
  revert c. induction links as [|link links IH]; intros c Hc; simpl; [done|].
  destruct (urljoin _ _); [|done]. by apply IH, offer_disjoint.
Qed.

Lemma loop_body_disjoint k c :
  disjoint_sets c → loop_cond c = true → disjoint_sets (loop_body k c).
Proof.
  intros Hc Hcond. unfold disjoint_sets in *.
  destruct (loop_body_step k c Hcond) as (u & Hu & _ & _ & Hcases).
  destruct Hcases as [(-> & -> & _)|(Hvis & -> & _ & _ & Hnew)]; [set_solver|].
  intros x Hx1 Hx2. destruct (Hnew x Hx1) as [Hx|[_ Hx]]; [|done].
  set_solver.
Qed.

Lemma init_inv dom d m c :
  __init__ dom d m = Some c →
  visited_urls c = ∅ ∧ seo_results c = [] ∧ requested c = [] ∧ max_pages c = m
  ∧ to_visit_urls c = {[domain c]} ∧ domain c ≠ "".
Proof.
  unfold __init__. destruct (urlparse _); [|done]. intros [= <-]. simpl.
  repeat split; try done.
  destruct (String.prefix "http://" dom || String.prefix "https://" dom) eqn:Hp; [|done].
  by destruct dom.
Qed.

(** Termination of the [while] loop. *)
Lemma crawl_loop_terminates_aux m :
  ∀ s c i,
    Z.to_nat (max_pages c - Z.of_nat (size (visited_urls c))) = m →
    size (to_visit_urls c) = s →
    ∃ fuel c', crawl_loop fuel i c = Some c' ∧ loop_cond c' = false.
Proof.
  induction m as [m IHm] using lt_wf_ind.
  induction s as [s IHs] using lt_wf_ind.
  intros c i Hm Hs.
  destruct (loop_cond c) eqn:Hcond.
  2:{ exists 0, c. simpl. by rewrite Hcond. }
  destruct (loop_body_step (sched i) c Hcond) as (u & Hu & _ & Hmax & Hcases).
  assert (∃ fuel c', crawl_loop fuel (S i) (loop_body (sched i) c) = Some c'
                     ∧ loop_cond c' = false) as (fuel & c' & Hrun & Hend).
  { destruct Hcases as [(Hv & Ht & _)|(Hvis & Hv & _)].
    - eapply (IHs (size (to_visit_urls (loop_body (sched i) c)))); [|by rewrite Hmax, Hv|done].
      rewrite Ht, <-Hs. rewrite size_difference by set_solver.
      rewrite size_singleton.
      assert (size (to_visit_urls c) ≠ 0); [|lia].
      intros Hz%size_empty_inv. set_solver.
    - eapply (IHm (Z.to_nat (max_pages (loop_body (sched i) c)
                     - Z.of_nat (size (visited_urls (loop_body (sched i) c))))));
        [|done|done].
      rewrite Hmax, Hv, size_union, size_singleton by set_solver.
      apply andb_true_iff in Hcond as [_ Hlt%Z.ltb_lt]. lia. }
  exists (S fuel), c'. simpl. by rewrite Hcond.
Qed.

Lemma crawl_loop_fuel_mono fuel fuel' i c c' :
  crawl_loop fuel i c = Some c' → fuel ≤ fuel' → crawl_loop fuel' i c = Some c'.
Proof.
  revert fuel' i c. induction fuel as [|fuel IH]; intros fuel' i c; simpl.
  - destruct (loop_cond c) eqn:Hc; [done|]. intros [= <-] _.
    destruct fuel'; simpl; by rewrite Hc.
  - destruct (loop_cond c) eqn:Hc.
    + intros Hrun Hle. destruct fuel' as [|fuel']; [lia|]. simpl. rewrite Hc.
      apply IH; [done|lia].
    + intros [= <-] _. destruct fuel'; simpl; by rewrite Hc.
Qed.

(** The state in which the loop ends is the state at the head of the loop
    after the iterations it made. *)
Lemma crawl_loop_iterate fuel i c c' :
  crawl_loop fuel i c = Some c' → c' = iterate fuel i c ∧ loop_cond c' = false.
Proof.
  revert i c. induction fuel as [|fuel IH]; intros i c; simpl.
  - destruct (loop_cond c) eqn:Hc; [done|]. by intros [= <-].
  - destruct (loop_cond c) eqn:Hc; [apply IH|]. by intros [= <-].
Qed.

Lemma loop_cond_false c :
  loop_cond c = false ↔
  to_visit_urls c = ∅ ∨ (max_pages c ≤ Z.of_nat (size (visited_urls c)))%Z.
Proof.
  unfold loop_cond. rewrite andb_false_iff, negb_false_iff, bool_decide_eq_true, Z.ltb_ge.
  done.
Qed.

Lemma loop_cond_true c :
  loop_cond c = true ↔
  to_visit_urls c ≠ ∅ ∧ (Z.of_nat (size (visited_urls c)) < max_pages c)%Z.
Proof.
  unfold loop_cond. rewrite andb_true_iff, negb_true_iff, bool_decide_eq_false, Z.ltb_lt.
  done.
Qed.

Lemma loop_body_counted k c : counted c → loop_cond c = true → counted (loop_body k c).
Proof.
  intros [Hsize Hsub] Hcond. unfold counted.
  destruct (loop_body_step k c Hcond) as (u & Hu & _ & -> & Hcases).
  apply loop_cond_true in Hcond as [_ Hlt].
  destruct Hcases as [(-> & _ & _ & [->| ->])|(Hvis & -> & -> & _)].
  - done.
  - split; [done|]. rewrite list_to_set_app_L. set_solver.
  - split.
    + rewrite size_union, size_singleton by set_solver. lia.
    + rewrite list_to_set_app_L. set_solver.
Qed.

Lemma loop_body_max_pages k c : max_pages (loop_body k c) = max_pages c.
Proof.
  unfold loop_body. destruct (set_pop _ _) as [[u rest]|]; [|done].
  case_bool_decide; [done|]. unfold visit. simpl.
  destruct (session_get _ _) as [| |ct soup]; [done..|].
  destruct (negb _); [done|]. destruct (_get_page_seo_issues _ _ _) as [r|]; [|done].
  rewrite (follow_links_frontier_update u _ _). simpl. by destruct (nonempty r).
Qed.

Lemma loop_body_base_domain k c : base_domain (loop_body k c) = base_domain c.
Proof.
  unfold loop_body. destruct (set_pop _ _) as [[u rest]|]; [|done].
  case_bool_decide; [done|]. unfold visit. simpl.
  destruct (session_get _ _) as [| |ct soup]; [done..|].
  destruct (negb _); [done|]. destruct (_get_page_seo_issues _ _ _) as [r|]; [|done].
  rewrite (follow_links_frontier_update u _ _). simpl. by destruct (nonempty r).
Qed.

Lemma iterate_max_pages n i c : max_pages (iterate n i c) = max_pages c.
Proof.
  apply (iterate_ind (λ c', max_pages c' = max_pages c)); [done|].
  intros k c' <- _. apply loop_body_max_pages.
Qed.

(** The visited set never loses a member and never shrinks. *)
Lemma loop_body_visited_mono k c :
  loop_cond c = true → visited_urls c ⊆ visited_urls (loop_body k c).
Proof.
  intros Hcond. destruct (loop_body_step k c Hcond) as (u & _ & _ & _ & Hcases).
  destruct Hcases as [(-> & _)|(_ & -> & _)]; set_solver.
Qed.

Lemma iterate_add n m i c :
  iterate (n + m) i c = iterate m (i + n) (iterate n i c).
Proof.
  revert i c. induction n as [|n IH]; intros i c; simpl.
  - by rewrite Nat.add_0_r.
  - destruct (loop_cond c) eqn:Hc.
    + rewrite IH. by replace (S i + n) with (i + S n) by lia.
    + destruct m; simpl; by rewrite ?Hc.
Qed.

(** As long as no new page is analysed the frontier only loses
    members. *)
Lemma iterate_no_discovery n i c :
  size (visited_urls c) ≤ size (visited_urls (iterate n i c))
  ∧ (size (visited_urls (iterate n i c)) = size (visited_urls c) →
     to_visit_urls (iterate n i c) ⊆ to_visit_urls c).
Proof.
  induction n as [|n [IH1 IH2]]; [done|].
  rewrite iterate_S. destruct (loop_cond (iterate n i c)) eqn:Hcond; [|done].
  destruct (loop_body_step (sched (i + n)) _ Hcond) as (u & _ & _ & _ & Hcases).
  destruct Hcases as [(-> & -> & _)|(Hvis & -> & _)].
  - split; [done|]. intros Heq. specialize (IH2 Heq). set_solver.
  - rewrite size_union, size_singleton by set_solver. split; lia.
Qed.

(** After the iteration that requests [u], [u] is not in the frontier. *)
Lemma requested_leaves_frontier k c u :
  requested (loop_body k c) = requested c ++ [u] →
  loop_cond c = true →
  u ∈ to_visit_urls c ∧ u ∉ to_visit_urls (loop_body k c).
Proof.
  intros Hreq Hcond.
  destruct (loop_body_step k c Hcond) as (u' & Hu' & _ & _ & Hcases).
  destruct Hcases as [(_ & -> & _ & [Hr|Hr])|(Hvis & Hv & Hr & _ & Hnew)];
    rewrite Hr in Hreq.
  - apply (f_equal length) in Hreq. rewrite length_app in Hreq. simpl in Hreq. lia.
  - apply app_inv_head in Hreq as [= ->]. set_solver.
  - apply app_inv_head in Hreq as [= ->]. split; [done|].
    intros Hin. destruct (Hnew _ Hin) as [?|[_ Hn]]; [set_solver|].
    rewrite Hv in Hn. set_solver.
Qed.

(** What [offer] does as the code is written, with [ext in url] tested on
    the whole URL: a candidate is newly enqueued exactly when [urlparse]
    accepts it, its netloc is [base_domain], its scheme is http or https,
    no denylisted string occurs in the URL, and it is neither visited nor in
    the frontier; an offer adds nothing but the candidate and leaves the
    visited set alone. *)
Lemma offer_enqueues_iff c url :
  ((url ∈ to_visit_urls (offer url c) ∧ (url ∉ to_visit_urls c))
   ↔ (∃ p, urlparse url = Some p
           ∧ netloc p = base_domain c
           ∧ (scheme p = "http" ∨ scheme p = "https")
           ∧ Forall (λ ext, Str.contains ext url = false) denylist)
     ∧ (url ∉ visited_urls c) ∧ (url ∉ to_visit_urls c))
  ∧ (∀ p, urlparse url = Some p → netloc p ≠ base_domain c → offer url c = c)
  ∧ to_visit_urls c ⊆ to_visit_urls (offer url c)
  ∧ to_visit_urls (offer url c) ⊆ {[url]} ∪ to_visit_urls c
  ∧ visited_urls (offer url c) = visited_urls c.
Proof.
  assert (_is_valid_url c url = true
          ↔ ∃ p, urlparse url = Some p
                 ∧ netloc p = base_domain c
                 ∧ (scheme p = "http" ∨ scheme p = "https")
                 ∧ Forall (λ ext, Str.contains ext url = false) denylist) as Hvalid.
  { unfold _is_valid_url. destruct (urlparse url) as [p|]; [|naive_solver].
    rewrite !andb_true_iff, !bool_decide_eq_true, negb_true_iff, existsb_false_Forall.
    rewrite !elem_of_cons, elem_of_nil. naive_solver. }
  split; [split|split; [|split; [|split]]].
  - intros [Hin Hnot]. rewrite offer_to_visit in Hin.
    destruct (_is_valid_url c url) eqn:Hv; [|done]. simpl in Hin.
    case_bool_decide; [|done]. split; [by apply Hvalid|done].
  - intros (Hv%Hvalid & Hvis & Hnot). rewrite offer_to_visit, Hv.
    rewrite !bool_decide_eq_true_2 by done. set_solver.
  - intros p Hp Hne. unfold offer, _is_valid_url. rewrite Hp.
    by rewrite bool_decide_eq_false_2.
  - rewrite offer_to_visit. destruct (_ && _); set_solver.
  - rewrite offer_to_visit. destruct (_ && _); set_solver.
  - by rewrite (offer_frontier_update url c).
Qed.

(** C6. For every site, whatever its links (cyclic or not) and whatever
    member [pop] picks, the crawl loop ends after finitely many iterations,
    in a state where the frontier is empty or the page ceiling is reached;
    [crawl] then returns the collected records. *)
Theorem crawl_terminates c :
  ∃ fuel c',
    crawl session_get sched fuel c = Some (set_crawl_complete true c', seo_results c')
    ∧ (to_visit_urls c' = ∅ ∨ (max_pages c' ≤ Z.of_nat (size (visited_urls c')))%Z)
    ∧ ∀ fuel', fuel ≤ fuel' →
        crawl session_get sched fuel' c = Some (set_crawl_complete true c', seo_results c').
Proof.
  destruct (crawl_loop_terminates_aux _ _ c 0 eq_refl eq_refl) as (fuel & c' & Hrun & Hend).
  exists fuel, c'. unfold crawl. rewrite Hrun.
  split; [done|]. split; [by apply loop_cond_false|].
  intros fuel' Hle. by rewrite (crawl_loop_fuel_mono _ _ _ _ _ Hrun Hle).
Qed.

(** At the head of the loop the frontier and the visited set are disjoint
    throughout a run started by [__init__]. *)
Lemma iterate_disjoint dom d m c n :
  __init__ dom d m = Some c → disjoint_sets (iterate n 0 c).
Proof.
  intros Hinit. apply (iterate_ind disjoint_sets).
  - destruct (init_inv _ _ _ _ Hinit) as (Hv & _). unfold disjoint_sets.
    rewrite Hv. set_solver.
  - intros k c'. apply loop_body_disjoint.
Qed.

(** C7. At the head of every iteration of a run no URL is both in the
    frontier and in the visited set, and this also holds inside an
    iteration: after [pop], after the popped URL is marked visited, and
    after each offer of a link.  Offering a URL that is already visited or
    already in the frontier changes nothing. *)
Theorem frontier_visited_disjoint dom d m c n url :
  __init__ dom d m = Some c →
  to_visit_urls (iterate n 0 c) ## visited_urls (iterate n 0 c)
  ∧ (∀ k u rest, set_pop k (to_visit_urls (iterate n 0 c)) = Some (u, rest) →
       rest ## visited_urls (iterate n 0 c)
       ∧ rest ## {[u]} ∪ visited_urls (iterate n 0 c))
  ∧ (∀ c', to_visit_urls c' ## visited_urls c' →
       to_visit_urls (offer url c') ## visited_urls (offer url c')
       ∧ (url ∈ visited_urls c' ∨ url ∈ to_visit_urls c' → offer url c' = c')).
Proof.
  intros Hinit. pose proof (iterate_disjoint _ _ _ _ n Hinit) as Hdisj.
  split; [done|]. split.
  - intros k u rest [Hu ->]%set_pop_Some. unfold disjoint_sets in Hdisj. set_solver.
  - intros c' Hc'. split; [by apply offer_disjoint|].
    intros Hseen. unfold offer.
    destruct (_is_valid_url c' url); simpl; [|done].
    destruct Hseen as [Hs|Hs].
    + by rewrite (bool_decide_eq_false_2 (url ∉ visited_urls c')) by (by intros []).
    + rewrite (bool_decide_eq_false_2 (url ∉ to_visit_urls c')) by (by intros []).
      by rewrite andb_false_r.
Qed.

Lemma visit_requested u c : requested (visit session_get u c) = requested c ++ [u].
Proof.
  unfold visit. simpl.
  destruct (session_get (requested c) u) as [| |ct soup]; [done..|].
  destruct (negb (is_html ct)); [done|].
  destruct (_get_page_seo_issues (base_domain c) u soup) as [r|]; [|done].
  rewrite (follow_links_frontier_update u _ _). simpl. by destruct (nonempty r).
Qed.

(** What a request that is not analysed leaves behind, and what one that
    is analysed adds to the visited set. *)
Lemma visit_cases u c :
  (is_analysed session_get (base_domain c) (requested c) u = false
   ∧ visit session_get u c = log_request u c)
  ∨ (is_analysed session_get (base_domain c) (requested c) u = true
     ∧ visited_urls (visit session_get u c) = {[u]} ∪ visited_urls c).
Proof.
  unfold visit, is_analysed. simpl.
  destruct (session_get (requested c) u) as [| |ct soup]; [by left..|].
  destruct (is_html ct); simpl; [|by left].
  destruct (_get_page_seo_issues (base_domain c) u soup) as [r|] eqn:Hr.
  - right. rewrite bool_decide_eq_true_2 by (by eexists). split; [done|].
    rewrite (follow_links_frontier_update u _ _). simpl. by destruct (nonempty r).
  - left. rewrite bool_decide_eq_false_2 by (by intros [? ?]). done.
Qed.

(** The iteration that makes the request of [u]: the loop is live, [pop]
    returns [u], [u] is not visited, and the iteration is the [try] block
    run on [u]. *)
Lemma request_at c n u :
  requested (iterate (S n) 0 c) = requested (iterate n 0 c) ++ [u] →
  loop_cond (iterate n 0 c) = true
  ∧ u ∈ to_visit_urls (iterate n 0 c)
  ∧ (u ∉ visited_urls (iterate n 0 c))
  ∧ iterate (S n) 0 c
    = visit session_get u
        (set_to_visit_urls (to_visit_urls (iterate n 0 c) ∖ {[u]}) (iterate n 0 c)).
Proof.
  rewrite iterate_S. simpl.
  destruct (loop_cond (iterate n 0 c)) eqn:Hcond.
  2:{ intros Hr. apply (f_equal length) in Hr. rewrite length_app in Hr.
      simpl in Hr. lia. }
  apply loop_cond_true in Hcond as [Hne _].
  destruct (set_pop_is_Some (sched n) _ Hne) as [[u' rest] Hpop].
  destruct (set_pop_Some _ _ _ _ Hpop) as [Hu' ->].
  unfold loop_body. rewrite Hpop. simpl.
  case_bool_decide as Hvis.
  - simpl. intros Hr. apply (f_equal length) in Hr. rewrite length_app in Hr.
    simpl in Hr. lia.
  - rewrite visit_requested. simpl. by intros [= <-]%app_inv_head.
Qed.

Lemma analysed_pages_snoc base before log u :
  analysed_pages session_get base before (log ++ [u])
  = analysed_pages session_get base before log
    ++ (if is_analysed session_get base (before ++ log) u then [u] else []).
Proof.
  revert before. induction log as [|v log IH]; intros before; simpl.
  - by rewrite !app_nil_r.
  - rewrite IH, <-!app_assoc. done.
Qed.

(** In a run started by [__init__] the visited set is made of the requests
    that were analysed, each of which occurs once among them. *)
Lemma iterate_analysed dom d m c n :
  __init__ dom d m = Some c →
  visited_urls (iterate n 0 c)
  = list_to_set (analysed_pages session_get (base_domain c) []
                   (requested (iterate n 0 c)))
  ∧ NoDup (analysed_pages session_get (base_domain c) [] (requested (iterate n 0 c))).
Proof.
  intros Hinit. induction n as [|n [IHv IHd]].
  - simpl. destruct (init_inv _ _ _ _ Hinit) as (-> & _ & -> & _). simpl.
    split; [done|constructor].
  - assert (base_domain (iterate n 0 c) = base_domain c) as Hbase.
    { apply (iterate_ind (λ c', base_domain c' = base_domain c)); [done|].
      intros k c' <- _. apply loop_body_base_domain. }
    rewrite iterate_S. simpl.
    destruct (loop_cond (iterate n 0 c)) eqn:Hcond; [|done].
    apply loop_cond_true in Hcond as [Hne _].
    destruct (set_pop_is_Some (sched n) _ Hne) as [[u rest] Hpop].
    unfold loop_body. rewrite Hpop. simpl.
    case_bool_decide as Hvis; [done|].
    rewrite visit_requested. simpl. rewrite analysed_pages_snoc. simpl.
    destruct (visit_cases u (set_to_visit_urls rest (iterate n 0 c)))
      as [[Hno ->]|[Hyes ->]]; simpl in *; rewrite Hbase in *.
    + rewrite Hno, app_nil_r. done.
    + rewrite Hyes. split.
      * rewrite list_to_set_app_L, <-IHv. set_solver.
      * apply NoDup_app. split; [done|]. split; [|apply NoDup_singleton].
        intros x Hx ->%list_elem_of_singleton. apply Hvis. rewrite IHv.
        by apply elem_of_list_to_set.
Qed.

(** C4 (amended). In every run started by [__init__] the visited set is
    exactly the set of the requested URLs whose response was HTML and was
    analysed, so its size is the number of the URLs fetched and analysed as
    HTML pages; a request that fails, that returns something else than HTML
    or whose analysis raises leaves the visited set as it was (it is not
    counted), and one that is analysed adds its URL, which was not counted
    before.  The size of the visited set never exceeds [max_pages] (nor 0
    when [max_pages] is negative), and the loop goes on exactly while the
    frontier is not empty and the visited set is smaller than
    [max_pages]. *)
Theorem visited_bounded_by_max_pages dom d m c n :
  __init__ dom d m = Some c →
  (Z.of_nat (size (visited_urls (iterate n 0 c))) ≤ Z.max 0 m)%Z
  ∧ (visited_urls (iterate n 0 c)
     = list_to_set (analysed_pages session_get (base_domain c) []
                      (requested (iterate n 0 c)))
     ∧ size (visited_urls (iterate n 0 c))
       = length (analysed_pages session_get (base_domain c) []
                   (requested (iterate n 0 c))))
  ∧ (∀ u, requested (iterate (S n) 0 c) = requested (iterate n 0 c) ++ [u] →
          (is_analysed session_get (base_domain c) (requested (iterate n 0 c)) u = false →
           visited_urls (iterate (S n) 0 c) = visited_urls (iterate n 0 c))
          ∧ (is_analysed session_get (base_domain c) (requested (iterate n 0 c)) u = true →
             (u ∉ visited_urls (iterate n 0 c))
             ∧ visited_urls (iterate (S n) 0 c) = {[u]} ∪ visited_urls (iterate n 0 c)))
  ∧ (loop_cond (iterate n 0 c) = true
     ↔ to_visit_urls (iterate n 0 c) ≠ ∅
       ∧ (Z.of_nat (size (visited_urls (iterate n 0 c))) < m)%Z)
  ∧ (iterate (S n) 0 c
     = if loop_cond (iterate n 0 c)
       then loop_body (sched n) (iterate n 0 c) else iterate n 0 c).
Proof.
  intros Hinit. destruct (init_inv _ _ _ _ Hinit) as (Hv & _ & Hr & Hm & _).
  assert (counted (iterate n 0 c)) as [Hsize Hsub].
  { apply (iterate_ind counted); [|apply loop_body_counted].
    unfold counted. rewrite Hv, Hr, size_empty. split; [lia|set_solver]. }
  rewrite iterate_max_pages, Hm in Hsize.
  destruct (iterate_analysed _ _ _ _ n Hinit) as [Hset Hnodup].
  split; [done|]. split; [|split; [|split]].
  - split; [done|]. by rewrite Hset, size_list_to_set.
  - intros u (_ & _ & Hvis & ->)%request_at.
    assert (base_domain (iterate n 0 c) = base_domain c) as Hbase.
    { apply (iterate_ind (λ c', base_domain c' = base_domain c)); [done|].
      intros k c' <- _. apply loop_body_base_domain. }
    destruct (visit_cases u (set_to_visit_urls (to_visit_urls (iterate n 0 c) ∖ {[u]})
                               (iterate n 0 c)))
      as [[Hno ->]|[Hyes ->]]; simpl in *; rewrite Hbase in *.
    + split; [done|]. intros Hyes. congruence.
    + split; [|done]. intros Hno. congruence.
  - rewrite loop_cond_true, iterate_max_pages, Hm. done.
  - by rewrite iterate_S.
Qed.

(** C3 (amended). When the fetch of a URL fails with a network error, the
    iteration removes the URL from the frontier and leaves the visited set
    and the output as they were: the URL is not marked visited and is not
    queued for a retry.  It is requested again only if a page is analysed
    successfully after the failure: at any later request of the same URL
    the visited set is strictly larger than it was after the failure. *)
Theorem failed_fetch_not_retried c i u :
  session_get (requested (iterate i 0 c)) u = RequestException →
  requested (iterate (S i) 0 c) = requested (iterate i 0 c) ++ [u] →
  (to_visit_urls (iterate (S i) 0 c) = to_visit_urls (iterate i 0 c) ∖ {[u]}
   ∧ visited_urls (iterate (S i) 0 c) = visited_urls (iterate i 0 c)
   ∧ seo_results (iterate (S i) 0 c) = seo_results (iterate i 0 c)
   ∧ (u ∉ visited_urls (iterate (S i) 0 c))
   ∧ (u ∉ to_visit_urls (iterate (S i) 0 c)))
  ∧ (∀ j, i < j →
          requested (iterate (S j) 0 c) = requested (iterate j 0 c) ++ [u] →
          size (visited_urls (iterate (S i) 0 c)) < size (visited_urls (iterate j 0 c))).
Proof.
  intros Hfail Hi.
  destruct (request_at _ _ _ Hi) as (_ & _ & Hvis & Hstep).
  assert (iterate (S i) 0 c
          = log_request u (set_to_visit_urls (to_visit_urls (iterate i 0 c) ∖ {[u]})
                             (iterate i 0 c))) as Hframe.
  { rewrite Hstep. unfold visit. simpl. by rewrite Hfail. }
  assert (u ∉ to_visit_urls (iterate (S i) 0 c)) as Hout.
  { rewrite Hframe. simpl. set_solver. }
  split.
  - rewrite Hframe in Hout |- *. simpl in *. by split_and!.
  - intros j Hij Hj.
    destruct (request_at _ _ _ Hj) as (_ & Hin' & _ & _).
    replace j with (S i + (j - S i)) in Hin' |- * by lia.
    rewrite iterate_add in Hin' |- *.
    destruct (iterate_no_discovery (j - S i) (0 + S i) (iterate (S i) 0 c))
      as [Hle Hsame].
    destruct (decide (size (visited_urls (iterate (j - S i) (0 + S i)
                                            (iterate (S i) 0 c)))
                      = size (visited_urls (iterate (S i) 0 c)))) as [Heq|Hne]; [|lia].
    specialize (Hsame Heq). set_solver.
Qed.

(** C10. In an iteration whose response has a Content-Type that does not
    contain text/html (compared in lower case; a missing header counts as
    empty), the URL is removed from the frontier and requested, while the
    visited set, the output and the rest of the frontier are unchanged.  The
    URL is not visited, it does not count toward [max_pages], and a later
    offer of it enqueues it again when it is in scope. *)
Theorem non_html_page_skipped c k u rest ct soup :
  set_pop k (to_visit_urls c) = Some (u, rest) →
  u ∉ visited_urls c →
  session_get (requested c) u = HttpResponse ct soup →
  is_html ct = false →
  to_visit_urls (loop_body k c) = to_visit_urls c ∖ {[u]}
  ∧ visited_urls (loop_body k c) = visited_urls c
  ∧ seo_results (loop_body k c) = seo_results c
  ∧ requested (loop_body k c) = requested c ++ [u]
  ∧ (u ∉ visited_urls (loop_body k c))
  ∧ size (visited_urls (loop_body k c)) = size (visited_urls c)
  ∧ (_is_valid_url (loop_body k c) u = true →
     u ∈ to_visit_urls (offer u (loop_body k c))).
Proof.
  clear sched. intros Hpop Hvis Hget Hct.
  destruct (set_pop_Some _ _ _ _ Hpop) as [Hu ->].
  assert (loop_body k c = log_request u (set_to_visit_urls (to_visit_urls c ∖ {[u]}) c))
    as ->.
  { unfold loop_body. rewrite Hpop. rewrite bool_decide_eq_false_2 by done.
    unfold visit. simpl. by rewrite Hget, Hct. }
  simpl. repeat (split; [done|]).
  intros Hvalid. rewrite offer_to_visit, Hvalid. simpl.
  rewrite !bool_decide_eq_true_2 by set_solver. set_solver.
Qed.

(** In a run started by [__init__] the empty string is never in the
    frontier, provided [urlparse] finds no scheme in it. *)
Lemma frontier_urls_nonempty dom d m c n :
  urlparse "" = Some (mkParse "" "" "" "" "" "") →
  __init__ dom d m = Some c →
  "" ∉ to_visit_urls (iterate n 0 c).
Proof.
  intros Hempty Hinit.
  apply (iterate_ind (λ c', "" ∉ to_visit_urls c')).
  - destruct (init_inv _ _ _ _ Hinit) as (_ & _ & _ & _ & -> & Hne). set_solver.
  - intros k c' Hc' Hcond.
    destruct (loop_body_step k c' Hcond) as (u & _ & _ & _ & Hcases).
    destruct Hcases as [(_ & -> & _)|(_ & _ & _ & _ & Hnew)]; [set_solver|].
    intros Hin. destruct (Hnew _ Hin) as [?|[Hvalid _]]; [set_solver|].
    unfold _is_valid_url in Hvalid. rewrite Hempty in Hvalid. simpl in Hvalid.
    by rewrite andb_false_r in Hvalid.
Qed.

(** C8. For a page of a run that is fetched as HTML and analysed, a
    category key is in the record exactly when that category produced an
    issue, the ['URL'] key is always there, and the record is appended to
    the output; when no category produced an issue the appended record
    holds the URL alone. *)
Theorem page_record_categories dom d m c n u rest ct soup r :
  urlparse "" = Some (mkParse "" "" "" "" "" "") →
  __init__ dom d m = Some c →
  loop_cond (iterate n 0 c) = true →
  set_pop (sched n) (to_visit_urls (iterate n 0 c)) = Some (u, rest) →
  session_get (requested (iterate n 0 c)) u = HttpResponse ct soup →
  is_html ct = true →
  _get_page_seo_issues (base_domain (iterate n 0 c)) u soup = Some r →
  (has_key "Title Issues" r = nonempty (title_issues soup)
   ∧ has_key "Meta Description Issues" r = nonempty (meta_description_issues soup)
   ∧ has_key "Heading Structure Issues" r = nonempty (heading_structure_issues soup)
   ∧ (∀ links, link_issues (base_domain (iterate n 0 c)) soup = Some links →
               has_key "Link Issues" r = nonempty links)
   ∧ has_key "Image SEO Issues" r = nonempty (image_issues soup)
   ∧ has_key "URL" r = true)
  ∧ seo_results (iterate (S n) 0 c) = seo_results (iterate n 0 c) ++ [r]
  ∧ (title_issues soup = [] →
     meta_description_issues soup = [] →
     heading_structure_issues soup = [] →
     link_issues (base_domain (iterate n 0 c)) soup = Some [] →
     image_issues soup = [] →
     r = [("URL", VStr u)]).
Proof.
  intros Hempty Hinit Hcond Hpop Hget Hct Hr.
  destruct (set_pop_Some _ _ _ _ Hpop) as [Hu ->].
  assert (Str.truthy u = true) as Htruthy.
  { destruct u; [|done]. by destruct (frontier_urls_nonempty _ _ _ _ n Hempty Hinit). }
  assert (u ∉ visited_urls (iterate n 0 c)) as Hvis.
  { pose proof (iterate_disjoint _ _ _ _ n Hinit) as Hdisj.
    unfold disjoint_sets in Hdisj. set_solver. }
  destruct (get_page_seo_issues_inv _ _ _ _ Hr) as (links & Hlinks & Hshape).
  pose proof (record_shape u (title_issues soup) (meta_description_issues soup)
                (heading_structure_issues soup) links (image_issues soup)) as Hrec.
  simpl in Hrec. rewrite <-Hshape in Hrec.
  destruct Hrec as ([_ Ht] & [_ Hm] & [_ Hh] & [_ Hl] & [_ Hi] & Hurl).
  split; [|split].
  - repeat (split; [done|]). split; [|split; [done|by rewrite Hurl]].
    intros links' Hl'. rewrite Hlinks in Hl'. by injection Hl' as <-.
  - rewrite iterate_S, Hcond. simpl. unfold loop_body. rewrite Hpop.
    rewrite bool_decide_eq_false_2 by done.
    unfold visit. simpl. rewrite Hget, Hct. simpl. rewrite Hr.
    rewrite (follow_links_frontier_update u _ _). simpl.
    assert (nonempty r = true) as ->; [|done].
    rewrite Hshape. destruct u; [done|]. reflexivity.
  - intros Ht0 Hm0 Hh0 Hl0 Hi0. rewrite Hshape.
    rewrite Hlinks in Hl0. injection Hl0 as ->. rewrite Ht0, Hm0, Hh0, Hi0.
    destruct u; [done|]. reflexivity.
Qed.

(** ** Further properties of the crawler *)

(** X7. [__init__] puts a scheme in front of the seed unless it already
    starts with [http://] or [https://] in lower case; the stored seed
    always starts with one of the two, it is the only member of the
    frontier, nothing is visited or recorded, [base_domain] is the netloc
    of the stored seed, and constructing a crawler from the stored seed
    gives the same crawler. *)
Theorem seed_is_normalised dom d m c :
  __init__ dom d m = Some c →
  (String.prefix "http://" (domain c) = true ∨ String.prefix "https://" (domain c) = true)
  ∧ domain c = (if String.prefix "http://" dom || String.prefix "https://" dom
                then dom else "http://" +:+ dom)
  ∧ (∃ p, urlparse (domain c) = Some p ∧ base_domain c = netloc p)
  ∧ to_visit_urls c = {[domain c]}
  ∧ visited_urls c = ∅
  ∧ seo_results c = []
  ∧ max_depth c = d ∧ max_pages c = m
  ∧ __init__ (domain c) d m = Some c.
Proof.
  unfold __init__.
  set (seed := if String.prefix "http://" dom || String.prefix "https://" dom
               then dom else "http://" +:+ dom).
  assert (String.prefix "http://" seed || String.prefix "https://" seed = true) as Hseed.
  { subst seed.
    destruct (String.prefix "http://" dom || String.prefix "https://" dom) eqn:Hp;
      [exact Hp|clear Hp; destruct dom; reflexivity]. }
  destruct (urlparse seed) as [p|] eqn:Hparse; [|done]. intros [= <-]. simpl.
  split; [by apply orb_true_iff|]. split; [done|]. split; [by exists p|].
  repeat (split; [done|]). by rewrite Hseed, Hparse.
Qed.

Lemma loop_body_requested k c :
  requested c `prefix_of` requested (loop_body k c).
Proof.
  unfold loop_body. destruct (set_pop k (to_visit_urls c)) as [[u rest]|] eqn:Hpop; [|done].
  destruct (loop_body_outcome k c u rest Hpop)
    as [[_ Hb]|[[_ Hb]|(_ & ct & soup & r & _ & _ & _ & Hb)]];
    unfold loop_body in Hb; rewrite Hpop in Hb; rewrite Hb.
  - done.
  - by exists [u].
  - rewrite (follow_links_frontier_update u _ _). by exists [u].
Qed.

Lemma loop_body_seo_results k c :
  seo_results c `prefix_of` seo_results (loop_body k c)
  ∧ length (seo_results (loop_body k c)) + size (visited_urls c)
    ≤ length (seo_results c) + size (visited_urls (loop_body k c)).
Proof.
  unfold loop_body. destruct (set_pop k (to_visit_urls c)) as [[u rest]|] eqn:Hpop; [|done].
  destruct (loop_body_outcome k c u rest Hpop)
    as [[_ Hb]|[[_ Hb]|(Hvis & ct & soup & r & _ & _ & _ & Hb)]];
    unfold loop_body in Hb; rewrite Hpop in Hb; rewrite Hb.
  - split; [done|simpl; lia].
  - split; [done|simpl; lia].
  - rewrite (follow_links_frontier_update u _ _). simpl.
    rewrite size_union, size_singleton by set_solver.
    destruct (nonempty r); [|split; [done|lia]].
    split; [by exists [r]|]. rewrite length_app. simpl. lia.
Qed.

(** From one iteration to a later one the request log and the output only
    grow at their end, and the visited set only grows. *)
Lemma iterate_grows n m i c :
  requested (iterate n i c) `prefix_of` requested (iterate (n + m) i c)
  ∧ seo_results (iterate n i c) `prefix_of` seo_results (iterate (n + m) i c)
  ∧ visited_urls (iterate n i c) ⊆ visited_urls (iterate (n + m) i c).
Proof.
  induction m as [|m (IH1 & IH2 & IH3)].
  - by rewrite Nat.add_0_r.
  - replace (n + S m) with (S (n + m)) by lia. rewrite iterate_S.
    destruct (loop_cond (iterate (n + m) i c)) eqn:Hcond; [|done].
    split; [|split].
    + etrans; [done|]. apply loop_body_requested.
    + etrans; [done|]. apply loop_body_seo_results.
    + etrans; [done|]. by apply loop_body_visited_mono.
Qed.

(** X8. From one head of the loop to a later one of the same run, the
    request log and the output sequence are extended at their end (nothing
    is removed or reordered) and the visited set only gains members. *)
Theorem run_only_grows c n n' :
  n ≤ n' →
  requested (iterate n 0 c) `prefix_of` requested (iterate n' 0 c)
  ∧ seo_results (iterate n 0 c) `prefix_of` seo_results (iterate n' 0 c)
  ∧ visited_urls (iterate n 0 c) ⊆ visited_urls (iterate n' 0 c).
Proof.
  intros Hle. replace n' with (n + (n' - n)) by lia. apply iterate_grows.
Qed.

(** The popped URL of an iteration that makes a request is not visited. *)
Lemma requested_unvisited k c u :
  requested (loop_body k c) = requested c ++ [u] → u ∉ visited_urls c.
Proof.
  unfold loop_body. destruct (set_pop k (to_visit_urls c)) as [[u' rest]|] eqn:Hpop.
  2:{ intros Hr. apply (f_equal length) in Hr. rewrite length_app in Hr. simpl in Hr. lia. }
  destruct (loop_body_outcome k c u' rest Hpop)
    as [[_ Hb]|[[Hvis Hb]|(Hvis & ct & soup & r & _ & _ & _ & Hb)]];
    unfold loop_body in Hb; rewrite Hpop in Hb; rewrite Hb.
  - simpl. intros Hr. apply (f_equal length) in Hr. rewrite length_app in Hr.
    simpl in Hr. lia.
  - simpl. by intros [= <-]%app_inv_head.
  - rewrite (follow_links_frontier_update u' _ _). simpl.
    by intros [= <-]%app_inv_head.
Qed.

(** X9. A page that has been analysed is never requested again: once a URL
    is in the visited set, no later iteration of the run requests it. *)
Theorem visited_never_requested_again c n j u :
  u ∈ visited_urls (iterate n 0 c) →
  n ≤ j →
  requested (iterate (S j) 0 c) ≠ requested (iterate j 0 c) ++ [u].
Proof.
  intros Hvis Hle Hreq.
  assert (u ∈ visited_urls (iterate j 0 c)) as Hvisj.
  { replace j with (n + (j - n)) by lia. by apply iterate_grows. }
  rewrite iterate_S in Hreq. simpl in Hreq.
  destruct (loop_cond (iterate j 0 c)).
  - by apply requested_unvisited in Hreq.
  - apply (f_equal length) in Hreq. rewrite length_app in Hreq. simpl in Hreq. lia.
Qed.

(** X10. In a run started by [__init__] the URL that [pop] returns is never
    a visited one, so the guard [if current_url in self.visited_urls] never
    fires and every iteration makes exactly one request, for the popped
    URL. *)
Theorem one_request_per_iteration dom d m c n u rest :
  __init__ dom d m = Some c →
  loop_cond (iterate n 0 c) = true →
  set_pop (sched n) (to_visit_urls (iterate n 0 c)) = Some (u, rest) →
  (u ∉ visited_urls (iterate n 0 c))
  ∧ requested (iterate (S n) 0 c) = requested (iterate n 0 c) ++ [u]
  ∧ length (requested (iterate (S n) 0 c)) = S n.
Proof.
  intros Hinit Hcond Hpop.
  assert (∀ j, loop_cond (iterate j 0 c) = true →
               ∀ v rest', set_pop (sched j) (to_visit_urls (iterate j 0 c)) = Some (v, rest') →
               (v ∉ visited_urls (iterate j 0 c))
               ∧ requested (iterate (S j) 0 c) = requested (iterate j 0 c) ++ [v]) as Hstep.
  { intros j Hc v rest' Hp.
    assert (v ∉ visited_urls (iterate j 0 c)) as Hv.
    { pose proof (iterate_disjoint _ _ _ _ j Hinit) as Hdisj.
      destruct (set_pop_Some _ _ _ _ Hp) as [Hin _].
      unfold disjoint_sets in Hdisj. set_solver. }
    split; [done|]. rewrite iterate_S, Hc. simpl.
    destruct (loop_body_outcome _ _ _ _ Hp)
      as [[Hvis _]|[[_ ->]|(_ & ct & soup & r & _ & _ & _ & ->)]]; [done|done|].
    by rewrite (follow_links_frontier_update v _ _). }
  destruct (Hstep n Hcond u rest Hpop) as [Hv Hr]. split; [done|]. split; [done|].
  rewrite Hr, length_app. simpl.
  assert (∀ j, loop_cond (iterate j 0 c) = true → length (requested (iterate j 0 c)) = j)
    as Hlen; [|rewrite (Hlen n Hcond); lia].
  clear n u rest Hcond Hpop Hv Hr.
  induction j as [|j IH]; intros Hc.
  - simpl. by destruct (init_inv _ _ _ _ Hinit) as (_ & _ & -> & _).
  - assert (loop_cond (iterate j 0 c) = true) as Hcj.
    { destruct (loop_cond (iterate j 0 c)) eqn:Hcj; [done|].
      rewrite iterate_S, Hcj in Hc. by rewrite Hcj in Hc. }
    apply loop_cond_true in Hcj as Hne. destruct Hne as [Hne _].
    destruct (set_pop_is_Some (sched j) _ Hne) as [[v rest'] Hp].
    destruct (Hstep j Hcj v rest' Hp) as [_ ->].
    rewrite length_app, (IH Hcj). simpl. lia.
Qed.

Lemma is_valid_url_base_domain c c' url :
  base_domain c' = base_domain c → _is_valid_url c' url = _is_valid_url c url.
Proof. unfold _is_valid_url. by intros ->. Qed.

Lemma iterate_base_domain n i c : base_domain (iterate n i c) = base_domain c.
Proof.
  apply (iterate_ind (λ c', base_domain c' = base_domain c)); [done|].
  intros k c' <- _. apply loop_body_base_domain.
Qed.

Lemma is_valid_url_netloc c url :
  _is_valid_url c url = true →
  ∃ p, urlparse url = Some p ∧ netloc p = base_domain c
       ∧ (scheme p = "http" ∨ scheme p = "https").
Proof.
  unfold _is_valid_url. destruct (urlparse url) as [p|]; [|done].
  rewrite !andb_true_iff, !bool_decide_eq_true, !elem_of_cons, elem_of_nil.
  intros [[Hn Hs] _]. exists p. naive_solver.
Qed.

(** X11. The crawl stays on the seed's host: every URL requested in a run
    started by [__init__] is the seed itself or a URL accepted by
    [_is_valid_url], and in both cases [urlparse] gives it the netloc
    [base_domain]. *)
Theorem requests_stay_on_host dom d m c n u :
  __init__ dom d m = Some c →
  u ∈ requested (iterate n 0 c) →
  (u = domain c ∨ _is_valid_url c u = true)
  ∧ ∃ p, urlparse u = Some p ∧ netloc p = base_domain c.
Proof.
  intros Hinit Hu.
  assert (u = domain c ∨ _is_valid_url c u = true) as Hscope.
  { revert u Hu.
    assert ((∀ x, x ∈ to_visit_urls (iterate n 0 c) →
                  x = domain c ∨ _is_valid_url c x = true)
            ∧ (∀ x, x ∈ requested (iterate n 0 c) →
                    x = domain c ∨ _is_valid_url c x = true)
            ∧ base_domain (iterate n 0 c) = base_domain c) as (_ & Hreq & _); [|done].
    apply (iterate_ind (λ c', (∀ x, x ∈ to_visit_urls c' →
                                    x = domain c ∨ _is_valid_url c x = true)
                              ∧ (∀ x, x ∈ requested c' →
                                      x = domain c ∨ _is_valid_url c x = true)
                              ∧ base_domain c' = base_domain c)).
    - destruct (init_inv _ _ _ _ Hinit) as (_ & _ & -> & _ & -> & _).
      split; [|split; [|done]].
      + intros x ->%elem_of_singleton. by left.
      + by intros x ?%elem_of_nil.
    - intros k c' (Hfront & Hreq & Hbase) Hcond.
      destruct (loop_body_step k c' Hcond) as (v & Hv & Hb & _ & Hcases).
      split; [|split; [|by rewrite Hb]].
      + destruct Hcases as [(_ & -> & _)|(_ & _ & _ & _ & Hnew)].
        * intros x Hx. apply Hfront. set_solver.
        * intros x Hx. destruct (Hnew x Hx) as [Hold|[Hvalid _]].
          -- apply Hfront. set_solver.
          -- right. by rewrite <-(is_valid_url_base_domain c c' x Hbase).
      + assert (requested (loop_body k c') = requested c'
                ∨ requested (loop_body k c') = requested c' ++ [v]) as [-> | ->].
        { destruct Hcases as [(_ & _ & _ & Hr)|(_ & _ & Hr & _)]; [done|by right]. }
        * done.
        * intros x [Hx|Hx]%elem_of_app; [by apply Hreq|].
          apply list_elem_of_singleton in Hx as ->. by apply Hfront. }
  split; [done|].
  destruct Hscope as [->|Hvalid].
  - unfold __init__ in Hinit. destruct (urlparse _) as [p|] eqn:Hp; [|done].
    injection Hinit as <-. simpl. by exists p.
  - destruct (is_valid_url_netloc _ _ Hvalid) as (p & Hp & Hn & _). by exists p.
Qed.

(** X12. A page whose request raises an exception that is not a
    [RequestException], or whose document has an anchor with an href that
    [urlparse] rejects, is abandoned like a failed fetch: the iteration
    only removes the URL from the frontier and logs the request; the page
    is not marked visited, gets no record, and none of its links is
    enqueued. *)
Theorem page_error_abandons_page c k u rest :
  set_pop k (to_visit_urls c) = Some (u, rest) →
  u ∉ visited_urls c →
  (session_get (requested c) u = OtherException
   ∨ ∃ ct soup, session_get (requested c) u = HttpResponse ct soup
                ∧ Exists (λ h, urlparse h = None) (hrefs soup)) →
  loop_body k c = log_request u (set_to_visit_urls (to_visit_urls c ∖ {[u]}) c).
Proof.
  clear sched. intros Hpop Hvis Herr.
  destruct (set_pop_Some _ _ _ _ Hpop) as [_ ->].
  unfold loop_body. rewrite Hpop. rewrite bool_decide_eq_false_2 by done.
  unfold visit. simpl.
  destruct Herr as [-> | (ct & soup & -> & Hbad)]; [done|].
  destruct (negb (is_html ct)); [done|].
  by rewrite (get_page_seo_issues_bad_href (base_domain c) u soup Hbad).
Qed.

(** X13. The output never holds more records than pages were visited, so
    [crawl] returns at most [max_pages] records (none when [max_pages] is
    not positive). *)
Theorem at_most_max_pages_records dom d m c fuel c' results :
  __init__ dom d m = Some c →
  crawl session_get sched fuel c = Some (c', results) →
  length results ≤ size (visited_urls c')
  ∧ (Z.of_nat (length results) ≤ Z.max 0 m)%Z.
Proof.
  intros Hinit Hcrawl. unfold crawl in Hcrawl.
  destruct (crawl_loop fuel 0 c) as [c1|] eqn:Hloop; [|done].
  injection Hcrawl as <- <-. simpl.
  destruct (crawl_loop_iterate _ _ _ _ Hloop) as [-> _].
  destruct (init_inv _ _ _ _ Hinit) as (Hv & Hs & Hr & Hm & _).
  assert (length (seo_results (iterate fuel 0 c)) ≤ size (visited_urls (iterate fuel 0 c)))
    as Hlen.
  { apply (iterate_ind (λ c', length (seo_results c') ≤ size (visited_urls c'))).
    - rewrite Hs. simpl. lia.
    - intros k c2 Hc2 _. destruct (loop_body_seo_results k c2) as [_ Hstep]. lia. }
  split; [done|].
  assert (counted (iterate fuel 0 c)) as [Hsize _].
  { apply (iterate_ind counted); [|apply loop_body_counted].
    unfold counted. rewrite Hv, Hr, size_empty. split; [lia|set_solver]. }
  rewrite iterate_max_pages, Hm in Hsize. lia.
Qed.

(** The records of a run and the URLs of the pages it analysed, in
    order. *)
Lemma iterate_records dom d m c n :
  urlparse "" = Some (mkParse "" "" "" "" "" "") →
  __init__ dom d m = Some c →
  ∃ urls,
    Forall2 (λ r u, dict_get "URL" r = Some (VStr u)) (seo_results (iterate n 0 c)) urls
    ∧ NoDup urls
    ∧ visited_urls (iterate n 0 c) = list_to_set urls.
Proof.
  intros Hempty Hinit.
  induction n as [|n (urls & Hrec & Hnd & Hvis)].
  - destruct (init_inv _ _ _ _ Hinit) as (Hv & Hs & _). exists []. simpl.
    rewrite Hv, Hs. split; [constructor|]. split; [constructor|done].
  - rewrite iterate_S.
    destruct (loop_cond (iterate n 0 c)) eqn:Hcond; [|by exists urls].
    apply loop_cond_true in Hcond as Hne. destruct Hne as [Hne _].
    destruct (set_pop_is_Some (sched (0 + n)) _ Hne) as [[u rest] Hpop].
    destruct (set_pop_Some _ _ _ _ Hpop) as [Hu _].
    destruct (loop_body_outcome _ _ _ _ Hpop)
      as [[_ ->]|[[_ ->]|(Hnew & ct & soup & r & _ & _ & Hr & ->)]];
      [by exists urls..|].
    assert (u ≠ "") as Hurl.
    { intros ->. by apply (frontier_urls_nonempty _ _ _ _ n Hempty Hinit). }
    destruct (record_has_url _ _ _ _ Hr Hurl) as [Hget Hnonempty].
    rewrite (follow_links_frontier_update u _ _). simpl. rewrite Hnonempty.
    exists (urls ++ [u]). split; [|split].
    + apply Forall2_app; [done|]. by constructor.
    + apply NoDup_app. split; [done|]. split; [|apply NoDup_singleton].
      intros x Hx ->%list_elem_of_singleton. apply Hnew. rewrite Hvis.
      by apply elem_of_list_to_set.
    + rewrite Hvis, list_to_set_app_L. set_solver.
Qed.

(** X14. In a run started by [__init__] the output holds exactly one
    record per visited page, in the order in which the pages were analysed:
    the ['URL'] entries of the records are pairwise distinct and are exactly
    the members of the visited set, so the output is as long as the visited
    set is large. *)
Theorem one_record_per_visited_page dom d m c n :
  urlparse "" = Some (mkParse "" "" "" "" "" "") →
  __init__ dom d m = Some c →
  ∃ urls,
    Forall2 (λ r u, dict_get "URL" r = Some (VStr u)) (seo_results (iterate n 0 c)) urls
    ∧ NoDup urls
    ∧ visited_urls (iterate n 0 c) = list_to_set urls
    ∧ length (seo_results (iterate n 0 c)) = size (visited_urls (iterate n 0 c)).
Proof.
  intros Hempty Hinit.
  destruct (iterate_records _ _ _ _ n Hempty Hinit) as (urls & Hrec & Hnd & Hvis).
  exists urls. repeat (split; [done|]).
  rewrite Hvis, size_list_to_set by done. by eapply Forall2_length.
Qed.

(** X15. The first request of a run is for the seed, whatever the seed is:
    the scope test [_is_valid_url] is applied to discovered links only.
    With a page ceiling that is not positive nothing is requested at all
    and [crawl] returns the empty list at once. *)
Theorem seed_is_requested_first dom d m c :
  __init__ dom d m = Some c →
  ((0 < m)%Z → ∀ n, 1 ≤ n → head (requested (iterate n 0 c)) = Some (domain c))
  ∧ ((m ≤ 0)%Z →
     (∀ n, requested (iterate n 0 c) = [])
     ∧ ∀ fuel, crawl session_get sched fuel c = Some (set_crawl_complete true c, [])).
Proof.
  intros Hinit. destruct (init_inv _ _ _ _ Hinit) as (Hv & Hs & Hr & Hm & Ht & _).
  split.
  - intros Hpos n Hn.
    assert (loop_cond c = true) as Hcond.
    { apply loop_cond_true. rewrite Ht, Hv, Hm, size_empty. split; [set_solver|lia]. }
    assert (requested (iterate 1 0 c) = [domain c]) as Hfirst.
    { simpl. rewrite Hcond.
      apply loop_cond_true in Hcond as [Hne _].
      destruct (set_pop_is_Some (sched 0) _ Hne) as [[u rest] Hpop].
      destruct (set_pop_Some _ _ _ _ Hpop) as [Hu _].
      rewrite Ht in Hu. apply elem_of_singleton in Hu as ->.
      destruct (loop_body_outcome _ _ _ _ Hpop)
        as [[Hin _]|[[_ ->]|(_ & ct & soup & r & _ & _ & _ & ->)]].
      - rewrite Hv in Hin. set_solver.
      - simpl. by rewrite Hr.
      - rewrite (follow_links_frontier_update (domain c) _ _). simpl. by rewrite Hr. }
    destruct (iterate_grows 1 (n - 1) 0 c) as [[k Hk] _].
    replace (1 + (n - 1)) with n in Hk by lia. by rewrite Hk, Hfirst.
  - intros Hle.
    assert (loop_cond c = false) as Hcond.
    { apply loop_cond_false. right. rewrite Hm. lia. }
    split.
    + intros n. destruct n; simpl; by rewrite ?Hcond.
    + intros fuel. unfold crawl. destruct fuel; simpl; by rewrite Hcond, Hs.
Qed.

(** X21. What [crawl] returns can always be reported and exported: every
    record has its ['URL'] key, so [display_seo_results] does not raise (it
    returns the list, or [None] when the list is empty) and neither the
    [txt] nor the [md] branch of [save_output] meets a missing key. *)
Theorem crawl_output_is_reportable dom d m c fuel c' results repr_of_list :
  urlparse "" = Some (mkParse "" "" "" "" "" "") →
  __init__ dom d m = Some c →
  crawl session_get sched fuel c = Some (c', results) →
  Forall (λ r, is_Some (dict_get "URL" r)) results
  ∧ (display_seo_results repr_of_list results).2
    = Returned (if nonempty results then Some results else None)
  ∧ (render_txt repr_of_list results).2 = false
  ∧ (render_md repr_of_list results).2 = false.
Proof.
  intros Hempty Hinit Hcrawl. unfold crawl in Hcrawl.
  destruct (crawl_loop fuel 0 c) as [c1|] eqn:Hloop; [|done].
  injection Hcrawl as <- <-.
  destruct (crawl_loop_iterate _ _ _ _ Hloop) as [-> _].
  destruct (iterate_records _ _ _ _ fuel Hempty Hinit) as (urls & Hrec & _).
  set (results := seo_results (iterate fuel 0 c)) in *.
  assert (Forall (λ r, is_Some (dict_get "URL" r)) results) as Hall.
  { clear -Hrec. induction Hrec; constructor; [by eexists|done]. }
  assert ((display_records repr_of_list results).2 = false) as Hflag.
  { apply not_true_iff_false. intros Hraised%display_records_raised.
    apply Exists_exists in Hraised as (r & Hr & Hnone).
    rewrite Forall_forall in Hall. destruct (Hall r Hr) as [v Hv]. congruence. }
  destruct (render_raised repr_of_list results) as [Htxt Hmd].
  split; [done|]. split; [|by rewrite Htxt, Hmd].
  unfold display_seo_results. destruct (nonempty results); [|done]. simpl.
  destruct (display_records repr_of_list results) as [lines raised].
  simpl in Hflag. by subst.
Qed.
End CrawlerFacts.

(** ** Concrete runs *)

(** C1.  The crawler seeded at [example.com] is offered
    [http://example.com/index.jsp] and [http://example.com/data.json],
    which have the seed's host, scheme http and a path that ends in none of
    the denylisted extensions, and which are neither visited nor in the
    frontier: [_is_valid_url] rejects both and neither is enqueued, because
    [.js] occurs in them.  For the same reason the crawler seeded at
    [cdn.jsdelivr.net] enqueues no page of its own host. *)
Theorem jsp_page_not_enqueued :
  (spec_in_scope example_crawler "http://example.com/index.jsp" = true
   ∧ ("http://example.com/index.jsp" ∉ visited_urls example_crawler)
   ∧ ("http://example.com/index.jsp" ∉ to_visit_urls example_crawler)
   ∧ _is_valid_url example_crawler "http://example.com/index.jsp" = false
   ∧ ("http://example.com/index.jsp"
        ∉ to_visit_urls (offer "http://example.com/index.jsp" example_crawler)))
  ∧ (spec_in_scope example_crawler "http://example.com/data.json" = true
     ∧ ("http://example.com/data.json" ∉ visited_urls example_crawler)
     ∧ ("http://example.com/data.json" ∉ to_visit_urls example_crawler)
     ∧ _is_valid_url example_crawler "http://example.com/data.json" = false
     ∧ ("http://example.com/data.json"
          ∉ to_visit_urls (offer "http://example.com/data.json" example_crawler)))
  ∧ (__init__ "cdn.jsdelivr.net" 3 50 = Some jsdelivr_crawler
     ∧ spec_in_scope jsdelivr_crawler "http://cdn.jsdelivr.net/about" = true
     ∧ ("http://cdn.jsdelivr.net/about" ∉ visited_urls jsdelivr_crawler)
     ∧ ("http://cdn.jsdelivr.net/about" ∉ to_visit_urls jsdelivr_crawler)
     ∧ _is_valid_url jsdelivr_crawler "http://cdn.jsdelivr.net/about" = false
     ∧ ("http://cdn.jsdelivr.net/about"
          ∉ to_visit_urls (offer "http://cdn.jsdelivr.net/about" jsdelivr_crawler))).
Proof.
  split_and!;
    first [ by vm_compute | apply (bool_decide_unpack _); vm_compute; reflexivity ].
Qed.

(** An in-scope page is enqueued. *)
Example html_page_enqueued :
  "http://example.com/index.html"
    ∈ to_visit_urls (offer "http://example.com/index.html" example_crawler).
Proof. apply (bool_decide_unpack _). vm_compute. reflexivity. Qed.

(** C2.  On the home page of [example.com] with eleven relative links to
    pages of the site, the analyzer reports eleven external links, although
    no link resolves to another host. *)
Theorem relative_links_counted_as_external :
  (∃ r, _get_page_seo_issues "example.com" "http://example.com" page_relative_links = Some r
        ∧ issues_of "Link Issues" r = ["High Number of External Links (11)"])
  ∧ spec_external_links "example.com" "http://example.com" page_relative_links = []
  ∧ Forall (λ href, resolved_netloc "http://example.com" href = Some "example.com")
           relative_hrefs.
Proof.
  split; [|split].
  - eexists. split; [vm_compute; reflexivity|reflexivity].
  - vm_compute. reflexivity.
  - repeat constructor.
Qed.

(** C3, counterexample.  On [site_retry] the request of [/a] fails with a
    network error, and [/a] is requested a second time after [/b], which
    links to it, has been analysed. *)
Lemma failed_url_fetched_again :
  __init__ "example.com" 3 50 = Some example_crawler
  ∧ site_retry ["http://example.com"] "http://example.com/a" = RequestException
  ∧ requested (iterate site_retry first_member 4 0 example_crawler)
    = ["http://example.com"; "http://example.com/a";
       "http://example.com/b"; "http://example.com/a"].
Proof. repeat split; vm_compute; reflexivity. Qed.

Lemma failed_fetch_not_retried_witness :
  (visited_urls (iterate site_retry first_member 2 0 example_crawler)
   = visited_urls (iterate site_retry first_member 1 0 example_crawler)
   ∧ ("http://example.com/a"
        ∉ to_visit_urls (iterate site_retry first_member 2 0 example_crawler)))
  ∧ size (visited_urls (iterate site_retry first_member 2 0 example_crawler))
    < size (visited_urls (iterate site_retry first_member 3 0 example_crawler)).
Proof.
  destruct (failed_fetch_not_retried site_retry first_member example_crawler
              1 "http://example.com/a") as [(_ & Hv & _ & _ & Hf) Hlater];
    [vm_compute; reflexivity..|].
  split; [exact (conj Hv Hf)|].
  apply Hlater; [lia|vm_compute; reflexivity].
Defined.

(** C4, counterexample.  With [max_pages = 10] the crawl of
    [site_dead_links] requests twelve distinct URLs. *)
Lemma dead_links_exceed_max_pages :
  ∃ c' results,
    crawl site_dead_links first_member 12 small_crawler = Some (c', results)
    ∧ max_pages c' = 10%Z
        ∧ size (list_to_set (requested c') : gset string) = 12.
Proof. do 2 eexists. split; [vm_compute; reflexivity|]. split; vm_compute; reflexivity. Qed.

Lemma visited_bounded_by_max_pages_witness :
  (Z.of_nat (size (visited_urls (iterate site_dead_links first_member 1 0 small_crawler)))
   ≤ Z.max 0 10)%Z
  ∧ visited_urls (iterate site_dead_links first_member 2 0 small_crawler)
    = visited_urls (iterate site_dead_links first_member 1 0 small_crawler).
Proof.
  destruct (visited_bounded_by_max_pages site_dead_links first_member
              "http://example.com" 3 10 small_crawler 1)
    as (Hbound & _ & Hstep & _); [reflexivity|].
  split; [exact Hbound|].
  refine (proj1 (Hstep "http://example.com/p7" _) _); vm_compute; reflexivity.
Defined.

(** C5, counterexample.  A document with one H1, one H2 and one H3 gets
    the heading-hierarchy issue "Missing H4". *)
Lemma h1_h2_h3_page_flagged :
  Soup.find_all "h1" page_h1_h2_h3 ≠ []
  ∧ Soup.find_all "h2" page_h1_h2_h3 ≠ []
  ∧ Soup.find_all "h3" page_h1_h2_h3 ≠ []
  ∧ ∃ r, _get_page_seo_issues "example.com" "http://example.com" page_h1_h2_h3 = Some r
         ∧ hierarchy_issue 4 ∈ issues_of "Heading Structure Issues" r.
Proof.
  repeat split; try done.
  eexists. split; [vm_compute; reflexivity|]. repeat constructor.
Qed.

Lemma heading_hierarchy_gaps_witness :
  "Potential Heading Hierarchy Issue (Missing H2)"
    ∈ issues_of "Heading Structure Issues"
        [("URL", VStr "http://example.com");
         ("Title Issues", VList ["Missing Title Tag"]);
         ("Meta Description Issues", VList ["Missing Meta Description"]);
         ("Heading Structure Issues",
          VList ["Potential Heading Hierarchy Issue (Missing H2)";
                 "Potential Heading Hierarchy Issue (Missing H4)"])]
  ∧ ("Potential Heading Hierarchy Issue (Missing H3)"
       ∉ issues_of "Heading Structure Issues"
           [("URL", VStr "http://example.com");
            ("Title Issues", VList ["Missing Title Tag"]);
            ("Meta Description Issues", VList ["Missing Meta Description"]);
            ("Heading Structure Issues",
             VList ["Potential Heading Hierarchy Issue (Missing H4)"])]).
Proof.
  split.
  - refine (proj1 (heading_hierarchy_gaps "example.com" "http://example.com"
                     page_h1_h3 _ _ _ _) _); [vm_compute; reflexivity|done..].
  - refine (proj1 (proj2 (proj2 (heading_hierarchy_gaps "example.com" "http://example.com"
                     page_h1_h2_h3 _ _ _ _) _)));
      [vm_compute; reflexivity|done..].
Defined.

(** A site with cyclic links is crawled in two iterations. *)
Example cyclic_site_crawled :
  ∃ c' results,
    crawl site_cycle first_member 2 example_crawler = Some (c', results)
    ∧ requested c' = ["http://example.com"; "http://example.com/b"]
    ∧ to_visit_urls c' = ∅.
Proof. do 2 eexists. split; [vm_compute; reflexivity|]. split; vm_compute; reflexivity. Qed.

Lemma frontier_visited_disjoint_witness :
  to_visit_urls (iterate site_retry first_member 3 0 example_crawler)
  ## visited_urls (iterate site_retry first_member 3 0 example_crawler).
Proof.
  refine (proj1 (frontier_visited_disjoint site_retry first_member
                   "example.com" 3 50 example_crawler 3 "http://example.com/a" _)).
  reflexivity.
Defined.

Lemma page_record_categories_witness :
  seo_results (iterate site_clean first_member 1 0 example_crawler)
  = seo_results (iterate site_clean first_member 0 0 example_crawler)
    ++ [[("URL", VStr "http://example.com")]].
Proof.
  refine (proj1 (proj2 (page_record_categories site_clean first_member
                   "example.com" 3 50 example_crawler 0 "http://example.com" ∅
                   (Some "text/html; charset=utf-8") page_clean
                   [("URL", VStr "http://example.com")] _ _ _ _ _ _ _)));
    vm_compute; reflexivity.
Defined.

Lemma title_length_boundaries_witness :
  issues_of "Title Issues"
    [("URL", VStr "http://example.com/t");
     ("Meta Description Issues", VList ["Missing Meta Description"]);
     ("Heading Structure Issues", VList ["No H1 Tag Found"])] = []
  ∧ issues_of "Title Issues"
      [("URL", VStr "http://example.com/t");
       ("Title Issues", VList ["Title Tag Length Issue (Current: 9 chars)"]);
       ("Meta Description Issues", VList ["Missing Meta Description"]);
       ("Heading Structure Issues", VList ["No H1 Tag Found"])]
    = ["Title Tag Length Issue (Current: 9 chars)"]
  ∧ issues_of "Title Issues"
      [("URL", VStr "http://example.com/t");
       ("Title Issues", VList ["Title Tag Length Issue (Current: 61 chars)"]);
       ("Meta Description Issues", VList ["Missing Meta Description"]);
       ("Heading Structure Issues", VList ["No H1 Tag Found"])]
    = ["Title Tag Length Issue (Current: 61 chars)"].
Proof.
  split; [|split].
  - refine (proj1 (proj1 (title_length_boundaries "example.com" "http://example.com/t"
                     (page_title "Ten chars!") _ (element "title" "Ten chars!") _ _ _) _));
      [vm_compute; reflexivity|reflexivity|discriminate|left; reflexivity].
  - refine (proj1 (proj2 (title_length_boundaries "example.com" "http://example.com/t"
                     (page_title "Nine char") _ (element "title" "Nine char") _ _ _)) _);
      [vm_compute; reflexivity|reflexivity|discriminate|reflexivity].
  - refine (proj2 (proj2 (title_length_boundaries "example.com" "http://example.com/t"
                     (page_title title_61) _ (element "title" title_61) _ _ _)) _);
      [vm_compute; reflexivity|reflexivity|discriminate|reflexivity].
Defined.

(** A page that is not HTML is requested twice in the same run. *)
Example plain_text_page_fetched_twice :
  requested (iterate site_plain_text first_member 4 0 example_crawler)
  = ["http://example.com"; "http://example.com/a";
     "http://example.com/b"; "http://example.com/a"].
Proof. vm_compute. reflexivity. Qed.

Lemma non_html_page_skipped_witness :
  visited_urls (loop_body site_plain_text 0
                  (iterate site_plain_text first_member 1 0 example_crawler))
  = visited_urls (iterate site_plain_text first_member 1 0 example_crawler).
Proof.
  refine (proj1 (proj2 (non_html_page_skipped site_plain_text
                   (iterate site_plain_text first_member 1 0 example_crawler) 0
                   "http://example.com/a" {["http://example.com/b"]}
                   (Some "text/plain") [] _ _ _ _))).
  - vm_compute. reflexivity.
  - apply (bool_decide_unpack _). vm_compute. reflexivity.
  - vm_compute. reflexivity.
  - reflexivity.
Defined.

(** ** Further concrete runs *)

Lemma heading_rules_witness :
  ∃ r, _get_page_seo_issues "example.com" "http://example.com" page_h1_h3 = Some r
       ∧ (hierarchy_issue 4 ∈ issues_of "Heading Structure Issues" r
          ↔ 2 ≤ 4 ≤ 6 ∧ headings page_h1_h3 (4 - 1) ≠ [] ∧ headings page_h1_h3 4 = []).
Proof.
  eexists. split; [vm_compute; reflexivity|].
  refine (proj2 (proj2 (heading_rules "example.com" "http://example.com"
                          page_h1_h3 _ _)) 4).
  vm_compute. reflexivity.
Defined.

Lemma meta_description_boundaries_witness :
  ∃ r, _get_page_seo_issues "example.com" "http://example.com" page_short_description
       = Some r
       ∧ issues_of "Meta Description Issues" r
         = ["Meta Description Length Issue (Current: 49 chars)"].
Proof.
  eexists. split; [vm_compute; reflexivity|].
  refine (proj2 (proj2 ((proj2 (meta_description_boundaries "example.com"
            "http://example.com" page_short_description _ _ _ _))
            "Forty-nine characters of description, never fifty" _) _) _).
  - vm_compute. reflexivity.
  - reflexivity.
  - reflexivity.
  - discriminate.
  - left. vm_compute. lia.
Defined.

Lemma link_rule_witness :
  ∃ r, _get_page_seo_issues "example.com" "http://example.com" page_twelve_links = Some r
       ∧ issues_of "Link Issues" r = ["High Number of External Links (11)"].
Proof.
  eexists. split; [vm_compute; reflexivity|].
  refine (link_rule "example.com" "http://example.com" page_twelve_links _ _).
  vm_compute. reflexivity.
Defined.

Lemma image_rule_witness :
  ∃ r, _get_page_seo_issues "example.com" "http://example.com" page_images = Some r
       ∧ issues_of "Image SEO Issues" r = ["2 Images Missing Alt Text"].
Proof.
  eexists. split; [vm_compute; reflexivity|].
  refine (proj2 (image_rule "example.com" "http://example.com" page_images _ _) _).
  - vm_compute. reflexivity.
  - discriminate.
Defined.

Lemma record_is_sparse_witness :
  ∃ r, _get_page_seo_issues "example.com" "http://example.com" page_clean = Some r
       ∧ NoDup r.*1.
Proof.
  eexists. split; [vm_compute; reflexivity|].
  refine (proj1 (proj2 (record_is_sparse "example.com" "http://example.com"
                          page_clean _ _))).
  vm_compute. reflexivity.
Defined.

Lemma seed_is_normalised_witness :
  String.prefix "http://" (domain example_crawler) = true
  ∨ String.prefix "https://" (domain example_crawler) = true.
Proof.
  refine (proj1 (seed_is_normalised "example.com" 3 50 example_crawler _)).
  reflexivity.
Defined.

Lemma run_only_grows_witness :
  requested (iterate site_retry first_member 1 0 example_crawler)
    `prefix_of` requested (iterate site_retry first_member 3 0 example_crawler).
Proof.
  refine (proj1 (run_only_grows site_retry first_member example_crawler 1 3 _)). lia.
Defined.

Lemma visited_never_requested_again_witness :
  requested (iterate site_retry first_member 3 0 example_crawler)
  ≠ requested (iterate site_retry first_member 2 0 example_crawler)
    ++ ["http://example.com"].
Proof.
  refine (visited_never_requested_again site_retry first_member example_crawler
            1 2 "http://example.com" _ _).
  - apply (bool_decide_unpack _). vm_compute. reflexivity.
  - lia.
Defined.

Lemma one_request_per_iteration_witness :
  requested (iterate site_retry first_member 2 0 example_crawler)
  = requested (iterate site_retry first_member 1 0 example_crawler)
    ++ ["http://example.com/a"].
Proof.
  refine (proj1 (proj2 (one_request_per_iteration site_retry first_member
            "example.com" 3 50 example_crawler 1 "http://example.com/a"
            {["http://example.com/b"]} _ _ _)));
    vm_compute; reflexivity.
Defined.

Lemma requests_stay_on_host_witness :
  ∃ p, urlparse "http://example.com/a" = Some p ∧ netloc p = "example.com".
Proof.
  refine (proj2 (requests_stay_on_host site_retry first_member
            "example.com" 3 50 example_crawler 4 "http://example.com/a" _ _)).
  - reflexivity.
  - apply (bool_decide_unpack _). vm_compute. reflexivity.
Defined.

Lemma page_error_abandons_page_witness :
  loop_body site_bad_href 0 example_crawler
  = log_request "http://example.com"
      (set_to_visit_urls (to_visit_urls example_crawler ∖ {["http://example.com"]})
         example_crawler).
Proof.
  refine (page_error_abandons_page site_bad_href example_crawler 0
            "http://example.com" ∅ _ _ _).
  - vm_compute. reflexivity.
  - apply (bool_decide_unpack _). vm_compute. reflexivity.
  - right. eexists _, _. split; [reflexivity|].
    apply Exists_cons_tl, Exists_cons_hd. reflexivity.
Defined.

Lemma at_most_max_pages_records_witness :
  ∃ c' results,
    crawl site_clean first_member 3 example_crawler = Some (c', results)
    ∧ (Z.of_nat (length results) ≤ Z.max 0 50)%Z.
Proof.
  do 2 eexists. split; [vm_compute; reflexivity|].
  refine (proj2 (at_most_max_pages_records site_clean first_member
            "example.com" 3 50 example_crawler 3 _ _ _ _)).
  - reflexivity.
  - vm_compute. reflexivity.
Defined.

Lemma one_record_per_visited_page_witness :
  ∃ urls,
    Forall2 (λ r u, dict_get "URL" r = Some (VStr u))
      (seo_results (iterate site_retry first_member 4 0 example_crawler)) urls
    ∧ NoDup urls
    ∧ visited_urls (iterate site_retry first_member 4 0 example_crawler)
      = list_to_set urls
    ∧ length (seo_results (iterate site_retry first_member 4 0 example_crawler))
      = size (visited_urls (iterate site_retry first_member 4 0 example_crawler)).
Proof.
  refine (one_record_per_visited_page site_retry first_member
            "example.com" 3 50 example_crawler 4 _ _); reflexivity.
Defined.

Lemma seed_is_requested_first_witness :
  head (requested (iterate site_retry first_member 4 0 example_crawler))
  = Some "http://example.com".
Proof.
  refine (proj1 (seed_is_requested_first site_retry first_member
            "example.com" 3 50 example_crawler _) _ 4 _); [reflexivity|lia|lia].
Defined.

Lemma display_is_lossless_witness :
  "Image SEO Issues:" ∈ (display_seo_results repr_plain sample_results).1
  ∧ "  - 2 Images Missing Alt Text" ∈ (display_seo_results repr_plain sample_results).1.
Proof.
  refine (display_is_lossless repr_plain sample_results
            [("URL", VStr "http://example.com");
             ("Title Issues", VList ["Missing Title Tag"]);
             ("Image SEO Issues", VList ["2 Images Missing Alt Text"])]
            "Image SEO Issues" ["2 Images Missing Alt Text"]
            "2 Images Missing Alt Text" _ _ _ _ _).
  - repeat constructor; by eexists.
  - repeat constructor.
  - repeat constructor.
  - discriminate.
  - repeat constructor.
Defined.

Lemma save_output_writes_safely_witness :
  ∃ answer line rest dir ext,
    ["YES"; " 4 "; ""] = answer :: line :: rest
    ∧ says_yes answer = true
    ∧ only_cwd dir = true
    ∧ ((Str.strip line = "2" ∧ ext = "csv")
       ∨ (Str.strip line = "3" ∧ ext = "xlsx")
       ∨ (Str.strip line = "4" ∧ ext = "md")
       ∨ ((Str.strip line ∉ ["2"; "3"; "4"]) ∧ ext = "txt"))
    ∧ "./audit-results.md" = posix_join dir ("audit-results." +:+ ext)
    ∧ content_matches ext sample_results
        (TextFile (render_md repr_plain sample_results).1).
Proof.
  refine (save_output_writes_safely repr_plain only_cwd posix_join opens pandas_writes
            sample_results ["YES"; " 4 "; ""] "./audit-results.md"
            (TextFile (render_md repr_plain sample_results).1) _).
  vm_compute. repeat constructor.
Defined.

Lemma crawl_output_is_reportable_witness :
  ∃ c' results,
    crawl site_clean first_member 3 example_crawler = Some (c', results)
    ∧ (display_seo_results repr_plain results).2
      = Returned (if nonempty results then Some results else None).
Proof.
  do 2 eexists. split; [vm_compute; reflexivity|].
  refine (proj1 (proj2 (crawl_output_is_reportable site_clean first_member
            "example.com" 3 50 example_crawler 3 _ _ repr_plain _ _ _))).
  - reflexivity.
  - reflexivity.
  - vm_compute. reflexivity.
Defined.

(** The text export of the sample records. *)
Example render_txt_sample :
  (render_txt repr_plain sample_results).1
  = "URL: http://example.com" +:+ nl +:+ "Title Issues:" +:+ nl
    +:+ "  - Missing Title Tag" +:+ nl +:+ "Image SEO Issues:" +:+ nl
    +:+ "  - 2 Images Missing Alt Text" +:+ nl +:+ nl
    +:+ "URL: http://example.com/a" +:+ nl +:+ nl.
Proof. reflexivity. Qed.
